(** * A rate-limited reverse proxy: shallow embedding and verified properties

    The development follows the Go packages of the repository:
    [ratelimit] (sliding-window tracker, per-client registry, eviction),
    [webhook] (rate-limit notification), [config] (environment loading)
    and [proxy] (client identity, admission policy).  The few functions of
    the Go standard library and of [golang.org/x/time/rate] the packages
    call are embedded in modules of their own ([time], [strconv], [json],
    [net], [textproto], [rate]).

    Conventions.  A Go [int] / [int64] / [time.Duration] is a [Z] kept in
    the signed 64-bit range, with the wrap-around written out ([wrap64]).
    A [time.Time] is a [Z]: a clock reading in nanoseconds.  Every
    [time.Now()] of the source is an explicit argument, so a run is a
    function of the clock readings.  Go maps are [gmap]s.  A panic is the
    [Panic] result.  Calls on collaborators (logger, HTTP client, response
    writer, backend proxy, token bucket) are recorded as a list of
    [Event]s. *)

From Stdlib Require Import ZArith Lia Ascii DecimalString DecimalPos.
From stdpp Require Import gmap strings list fin_maps sorting.

Local Open Scope Z_scope.

(** ** Machine integers and results *)

Definition minInt64 : Z := - 2 ^ 63.
Definition maxInt64 : Z := 2 ^ 63 - 1.

Definition inInt64 (z : Z) : bool := (minInt64 <=? z) && (z <=? maxInt64).

(** Two's complement wrap-around of 64-bit signed arithmetic. *)
Definition wrap64 (z : Z) : Z := (z + 2 ^ 63) mod 2 ^ 64 - 2 ^ 63.

Inductive result (A : Type) : Type :=
| Ok (a : A)
| Panic (msg : string).
Arguments Ok {A} a.
Arguments Panic {A} msg.

(** ** Package time *)

Module time.

Definition Nanosecond : Z := 1.
Definition Second : Z := 1000000000 * Nanosecond.
Definition Minute : Z := 60 * Second.

(** [t.Sub(u)]: the difference of two readings, saturated to the range
    of a Duration. *)
Definition Sub (t u : Z) : Z := Z.max minInt64 (Z.min maxInt64 (t - u)).

End time.

(** ** Package golang.org/x/time/rate: the token bucket gate *)

Module rate.

(** Modelled from the spec: the limiter of golang.org/x/time/rate is a
    dependency whose source is not part of the repository.  The gate is
    the token bucket of the spec: a refill rate, a capacity, the tokens
    held and the reading of the last refill; it starts full.  The library
    computes with float64; here the arithmetic is exact: a rate is one
    token per [interval] nanoseconds and [tokens] counts nanoseconds of
    accrued refill, so one whole token is [interval] units and a full
    bucket holds [burst * interval]. *)
Inductive Limit : Type :=
| Inf
| PerInterval (interval : Z).

(** Modelled from the spec: [rate.Every], one token per interval (the
    spec's one token per 1/limit seconds); as in the library, a
    non-positive interval means no limit at all. *)
Definition Every (interval : Z) : Limit :=
  if interval <=? 0 then Inf else PerInterval interval.

(** Modelled from the spec: the gate's attributes (refill rate,
    capacity, tokens, reading of the last refill). *)
Record Limiter : Type := mkLimiter {
  limit : Limit;
  burst : Z;
  tokens : Z;
  last : option Z
}.

Definition fullBucket (r : Limit) (b : Z) : Z :=
  match r with
  | Inf => 0
  | PerInterval i => b * i
  end.

(** Modelled from the spec: [rate.NewLimiter]; the bucket starts full
    and has never been refilled. *)
Definition NewLimiter (r : Limit) (b : Z) : Limiter :=
  {| limit := r; burst := b; tokens := fullBucket r b; last := None |}.

(** Modelled from the spec: the time since the last refill; a bucket
    never refilled, or one whose last refill lies after [now], has
    nothing to add. *)
Definition elapsed (now : Z) (lim : Limiter) : Z :=
  match last lim with
  | None => 0
  | Some l => Z.max 0 (time.Sub now l)
  end.

(** Modelled from the spec: [Allow] (the spec's tryAcquire) at clock
    reading [now]: refill for the elapsed time up to the capacity, move
    the refill reading to [now], and take one token if a whole one is
    there.  A gate without limit always admits. *)
Definition Allow (now : Z) (lim : Limiter) : bool * Limiter :=
  match limit lim with
  | Inf => (true, lim)
  | PerInterval i =>
      let t := Z.min (burst lim * i) (tokens lim + elapsed now lim) in
      if i <=? t
      then (true, {| limit := limit lim; burst := burst lim;
                     tokens := t - i; last := Some now |})
      else (false, {| limit := limit lim; burst := burst lim;
                      tokens := t; last := Some now |})
  end.

End rate.

(** ** Package ratelimit *)

Module ratelimit.

Record RequestTracker : Type := mkTracker {
  windowStart : Z;
  currentCount : Z
}.

(** [NewRequestTracker]; [now] is the reading of [time.Now()]. *)
Definition NewRequestTracker (now : Z) : RequestTracker :=
  {| windowStart := now; currentCount := 0 |}.

(** [TrackRequest]: the returned count and the tracker after the call. *)
Definition TrackRequest (now : Z) (rt : RequestTracker) : Z * RequestTracker :=
  let rt1 :=
    if time.Second <=? time.Sub now (windowStart rt)
    then {| windowStart := now; currentCount := 0 |}
    else rt in
  let c := wrap64 (currentCount rt1 + 1) in
  (c, {| windowStart := windowStart rt1; currentCount := c |}).

(** [GetCurrentRPS]; [now] is the reading behind [time.Since]. *)
Definition GetCurrentRPS (now : Z) (rt : RequestTracker) : Z :=
  if time.Sub now (windowStart rt) <? time.Second
  then currentCount rt
  else 0.

(** A run of [TrackRequest] calls on one tracker at the given readings:
    the returned count and the tracker after each call. *)
Fixpoint trackAll (nows : list Z) (rt : RequestTracker)
  : list (Z * RequestTracker) :=
  match nows with
  | [] => []
  | now :: rest =>
      let r := TrackRequest now rt in
      r :: trackAll rest (snd r)
  end.

(** The tracker a run of calls leaves behind. *)
Definition lastTracker (nows : list Z) (rt : RequestTracker) : RequestTracker :=
  default rt (snd <$> last (trackAll nows rt)).

(** The window starts a tracker goes through in a run, the one it
    starts from first. *)
Definition windowStarts (nows : list Z) (rt : RequestTracker) : list Z :=
  windowStart rt :: map (fun r => windowStart r.2) (trackAll nows rt).

Record RateLimiter : Type := mkRateLimiter {
  clients : gmap string rate.Limiter;
  requests : gmap string RequestTracker;
  rate : rate.Limit;
  rps : Z
}.

(** [NewRateLimiter].  [time.Second / time.Duration(rps)] is an integer
    division: it panics on a zero divisor and truncates toward zero.
    The ticker and the goroutine it feeds are the [cleanup] run below. *)
Definition NewRateLimiter (rps : Z) : result RateLimiter :=
  if rps =? 0
  then Panic "runtime error: integer divide by zero"
  else Ok {| clients := ∅;
             requests := ∅;
             rate := rate.Every (Z.quot time.Second rps);
             rps := rps |}.

(** The body of the inner loop of [cleanup], for one map entry. *)
Definition cleanupEntry (now : Z) (rl : RateLimiter)
    (e : string * RequestTracker) : RateLimiter :=
  if time.Minute <? time.Sub now (windowStart e.2)
  then {| clients := delete e.1 (clients rl);
          requests := delete e.1 (requests rl);
          rate := rate rl;
          rps := rps rl |}
  else rl.

(** One sweep: the body of the outer loop, run at one tick of the
    ticker.  [now] is read once; the range visits every entry the
    tracker map holds when the sweep starts (it only ever deletes the
    entry it is visiting). *)
Definition cleanupSweep (now : Z) (rl : RateLimiter) : RateLimiter :=
  foldl (cleanupEntry now) rl (map_to_list (requests rl)).

(** [cleanup]: one sweep per tick received from the ticker. *)
Definition cleanup (ticks : list Z) (rl : RateLimiter) : RateLimiter :=
  foldl (fun acc now => cleanupSweep now acc) rl ticks.

(** [GetLimiter]; [now] is the reading [NewRequestTracker] takes when a
    tracker is created. *)
Definition GetLimiter (now : Z) (ip : string) (rl : RateLimiter)
  : (rate.Limiter * RequestTracker) * RateLimiter :=
  let '(limiter, cl) :=
    match clients rl !! ip with
    | Some l => (l, clients rl)
    | None =>
        let l := rate.NewLimiter (rate rl) 1 in
        (l, <[ip := l]> (clients rl))
    end in
  let '(tr, rq) :=
    match requests rl !! ip with
    | Some t => (t, requests rl)
    | None =>
        let t := NewRequestTracker now in
        (t, <[ip := t]> (requests rl))
    end in
  ((limiter, tr),
   {| clients := cl; requests := rq; rate := rate rl; rps := rps rl |}).

(** The handler mutates the tracker and the limiter through the
    pointers [GetLimiter] returned; the maps own these objects, so the
    mutation is a store under the same key. *)
Definition storeTracker (ip : string) (t : RequestTracker)
    (rl : RateLimiter) : RateLimiter :=
  {| clients := clients rl; requests := <[ip := t]> (requests rl);
     rate := rate rl; rps := rps rl |}.

Definition storeLimiter (ip : string) (l : rate.Limiter)
    (rl : RateLimiter) : RateLimiter :=
  {| clients := <[ip := l]> (clients rl); requests := requests rl;
     rate := rate rl; rps := rps rl |}.

(** The operations that change the registry's maps, as a machine. *)
Inductive Op : Type :=
| OpGetLimiter (now : Z) (ip : string)
| OpSweep (now : Z).

Definition step (rl : RateLimiter) (o : Op) : RateLimiter :=
  match o with
  | OpGetLimiter now ip => snd (GetLimiter now ip rl)
  | OpSweep now => cleanupSweep now rl
  end.

Definition steps (ops : list Op) (rl : RateLimiter) : RateLimiter :=
  foldl step rl ops.

(** What a sweep at [now] looks for in a tracker. *)
Definition stale (now : Z) (t : RequestTracker) : bool :=
  time.Minute <? time.Sub now (windowStart t).

(** An identity has a tracker exactly when it has a gate. *)
Definition paired (rl : RateLimiter) : Prop :=
  dom (clients rl) = dom (requests rl).

(** A tracker left alone survives the sweeps at the given ticks when
    none of them finds it stale. *)
Definition survives (ticks : list Z) (t : RequestTracker) : bool :=
  forallb (fun now => negb (stale now t)) ticks.

End ratelimit.

(** ** Package strconv *)

Module strconv.

(** [Itoa]: the decimal text of an int, with a leading minus sign for a
    negative one. *)
Definition Itoa (z : Z) : string := NilZero.string_of_int (Z.to_int z).

Definition digitVal (c : ascii) : option Z :=
  let n := Z.of_N (Ascii.N_of_ascii c) in
  if (48 <=? n) && (n <=? 57) then Some (n - 48) else None.

Fixpoint parseDigits (acc : Z) (s : string) : option Z :=
  match s with
  | EmptyString => Some acc
  | String c rest =>
      match digitVal c with
      | Some d => parseDigits (acc * 10 + d) rest
      | None => None
      end
  end.

(** [Atoi]: an optional sign, then one or more decimal digits, and a
    value an int can hold; [None] stands for a non-nil error (both the
    short-input path and [ParseInt] accept exactly these texts). *)
Definition Atoi (s : string) : option Z :=
  let body :=
    match s with
    | String "-"%char r => r
    | String "+"%char r => r
    | _ => s
    end in
  match body with
  | EmptyString => None
  | _ =>
      match parseDigits 0 body with
      | Some n =>
          let v := match s with String "-"%char _ => - n | _ => n end in
          if inInt64 v then Some v else None
      | None => None
      end
  end.

(** [ParseBool]: the twelve accepted spellings; [None] stands for the
    syntax error. *)
Definition ParseBool (str : string) : option bool :=
  if bool_decide (str ∈ ["1"; "t"; "T"; "true"; "TRUE"; "True"]) then Some true
  else if bool_decide (str ∈ ["0"; "f"; "F"; "false"; "FALSE"; "False"])
  then Some false
  else None.

End strconv.

(** ** Package encoding/json, as far as the notifier uses it *)

Module json.

(** The values the notifier puts into its [map[string]interface{}]. *)
Inductive Value : Type :=
| VString (s : string)
| VInt (z : Z).

Definition quote : ascii := "034"%char.

Definition hexDigit (n : N) : ascii :=
  match String.get (N.to_nat n) "0123456789abcdef" with
  | Some c => c
  | None => "0"%char
  end.

(** The bytes below 0x80 that are copied as they are (HTML escaping is
    on for [Marshal]). *)
Definition htmlSafe (b : N) : bool :=
  (32 <=? b)%N && negb (b =? 34)%N && negb (b =? 38)%N
  && negb (b =? 60)%N && negb (b =? 62)%N && negb (b =? 92)%N.

Definition escapeByte (c : ascii) : string :=
  let b := Ascii.N_of_ascii c in
  if htmlSafe b then String c EmptyString
  else if (b =? 92)%N || (b =? 34)%N then String "\"%char (String c EmptyString)
  else if (b =? 10)%N then "\n"
  else if (b =? 13)%N then "\r"
  else if (b =? 9)%N then "\t"
  else "\u00" +:+ String (hexDigit (b / 16)) (String (hexDigit (b mod 16)) EmptyString).

Inductive RuneSize : Type := Two | Three | Four.

(** Length of the UTF-8 sequence a lead byte starts and the range its
    second byte must lie in; [None] for a byte that starts none. *)
Definition first (b : N) : option (RuneSize * N * N) :=
  (if b <? 194 then None
   else if b <=? 223 then Some (Two, 128, 191)
   else if b =? 224 then Some (Three, 160, 191)
   else if b <=? 236 then Some (Three, 128, 191)
   else if b =? 237 then Some (Three, 128, 159)
   else if b <=? 239 then Some (Three, 128, 191)
   else if b =? 240 then Some (Four, 144, 191)
   else if b <=? 243 then Some (Four, 128, 191)
   else if b =? 244 then Some (Four, 128, 143)
   else None)%N.

Definition between (lo hi : N) (c : ascii) : bool :=
  let b := Ascii.N_of_ascii c in (lo <=? b)%N && (b <=? hi)%N.

(** U+2028 and U+2029 (E2 80 A8, E2 80 A9) are always escaped. *)
Definition threeBytes (c0 c1 c2 : ascii) : string :=
  if (Ascii.N_of_ascii c0 =? 226)%N && (Ascii.N_of_ascii c1 =? 128)%N
  then if (Ascii.N_of_ascii c2 =? 168)%N then "\u2028"
       else if (Ascii.N_of_ascii c2 =? 169)%N then "\u2029"
       else String c0 (String c1 (String c2 EmptyString))
  else String c0 (String c1 (String c2 EmptyString)).

(** The text between the quotes: ASCII is escaped byte by byte, a byte
    that does not start a well-formed UTF-8 sequence becomes the
    replacement character's escape, a well-formed sequence is copied. *)
Fixpoint encodeBody (s : string) : string :=
  match s with
  | EmptyString => EmptyString
  | String c0 r0 =>
      let b0 := Ascii.N_of_ascii c0 in
      if (b0 <? 128)%N then escapeByte c0 +:+ encodeBody r0
      else
        let bad := "\ufffd" +:+ encodeBody r0 in
        match first b0, r0 with
        | Some (n, lo, hi), String c1 r1 =>
            if between lo hi c1 then
              match n, r1 with
              | Two, _ => String c0 (String c1 (encodeBody r1))
              | _, String c2 r2 =>
                  if between 128 191 c2 then
                    match n, r2 with
                    | Four, String c3 r3 =>
                        if between 128 191 c3
                        then String c0 (String c1 (String c2 (String c3 (encodeBody r3))))
                        else bad
                    | Four, EmptyString => bad
                    | _, _ => threeBytes c0 c1 c2 +:+ encodeBody r2
                    end
                  else bad
              | _, EmptyString => bad
              end
            else bad
        | _, _ => bad
        end
  end.

(** A text between two quotes. *)
Definition quoted (s : string) : string :=
  String quote (s +:+ String quote EmptyString).

Definition encodeString (s : string) : string := quoted (encodeBody s).

(** Texts the encoder copies unchanged: ASCII with nothing to escape. *)
Definition plainText (s : string) : bool :=
  forallb (fun c => (Ascii.N_of_ascii c <? 128)%N && htmlSafe (Ascii.N_of_ascii c))
    (String.list_ascii_of_string s).

Definition encodeValue (v : Value) : string :=
  match v with
  | VString s => encodeString s
  | VInt z => strconv.Itoa z
  end.

(** Map keys are written in sorted order (byte-wise comparison). *)
Fixpoint insertSorted (e : string * Value) (l : list (string * Value))
  : list (string * Value) :=
  match l with
  | [] => [e]
  | x :: rest =>
      if String.leb e.1 x.1 then e :: l else x :: insertSorted e rest
  end.

Definition sortKeys (l : list (string * Value)) : list (string * Value) :=
  foldr insertSorted [] l.

Definition encodeMember (e : string * Value) : string :=
  encodeString e.1 +:+ ":" +:+ encodeValue e.2.

Fixpoint encodeMembers (l : list (string * Value)) : string :=
  match l with
  | [] => EmptyString
  | [e] => encodeMember e
  | e :: rest => encodeMember e +:+ "," +:+ encodeMembers rest
  end.

(** [Marshal] of a map with string keys and string or int values; it
    cannot fail on such a map. *)
Definition Marshal (m : gmap string Value) : string :=
  "{" +:+ encodeMembers (sortKeys (map_to_list m)) +:+ "}".

End json.

(** ** Package net/textproto and net: header keys, host and port *)

Module textproto.

Definition isLower (b : N) : bool := (97 <=? b)%N && (b <=? 122)%N.
Definition isUpper (b : N) : bool := (65 <=? b)%N && (b <=? 90)%N.
Definition isDigit (b : N) : bool := (48 <=? b)%N && (b <=? 57)%N.

(** The bytes of an HTTP token. *)
Definition validHeaderFieldByte (c : ascii) : bool :=
  let b := Ascii.N_of_ascii c in
  isLower b || isUpper b || isDigit b
  || bool_decide (c ∈ String.list_ascii_of_string "!#$%&'*+-.^_`|~").

(** Upper case at the start and after each dash, lower case elsewhere. *)
Fixpoint canonical (upper : bool) (s : string) : string :=
  match s with
  | EmptyString => EmptyString
  | String c rest =>
      let b := Ascii.N_of_ascii c in
      let c' :=
        if upper && isLower b then Ascii.ascii_of_N (b - 32)
        else if negb upper && isUpper b then Ascii.ascii_of_N (b + 32)
        else c in
      String c' (canonical (Ascii.eqb c' "-") rest)
  end.

(** [CanonicalMIMEHeaderKey]: a key holding a byte that is no token
    byte is returned unchanged. *)
Definition CanonicalMIMEHeaderKey (s : string) : string :=
  if forallb validHeaderFieldByte (String.list_ascii_of_string s)
  then canonical true s
  else s.

(** [MIMEHeader.Get]: the first value stored under the canonical form
    of the key, the empty string when there is none. *)
Definition Get (h : gmap string (list string)) (key : string) : string :=
  match h !! CanonicalMIMEHeaderKey key with
  | Some (v :: _) => v
  | _ => EmptyString
  end.

End textproto.

Module net.

Fixpoint IndexByte (s : string) (c : ascii) : option nat :=
  match s with
  | EmptyString => None
  | String a rest =>
      if Ascii.eqb a c then Some 0%nat else S <$> IndexByte rest c
  end.

Fixpoint LastIndexByte (s : string) (c : ascii) : option nat :=
  match s with
  | EmptyString => None
  | String a rest =>
      match LastIndexByte rest c with
      | Some i => Some (S i)
      | None => if Ascii.eqb a c then Some 0%nat else None
      end
  end.

(** [s[i:j]] and [s[i:]]. *)
Definition slice (s : string) (i j : nat) : string :=
  String.substring i (j - i) s.
Definition sliceFrom (s : string) (i : nat) : string :=
  String.substring i (String.length s - i) s.

(** No colon and no bracket. *)
Definition plain (s : string) : bool :=
  bool_decide (IndexByte s ":" = None)
  && bool_decide (IndexByte s "[" = None)
  && bool_decide (IndexByte s "]" = None).

Definition missingPort : string := "missing port in address".
Definition tooManyColons : string := "too many colons in address".

Definition addrErr (why : string) : string * string * option string :=
  (EmptyString, EmptyString, Some why).

(** [SplitHostPort]: host, port and the error ([None] for nil).  The
    port starts after the last colon; a host in brackets ends at the
    bracket just before that colon; a host without brackets holds no
    colon; no further bracket may occur. *)
Definition SplitHostPort (hostport : string) : string * string * option string :=
  match LastIndexByte hostport ":" with
  | None => addrErr missingPort
  | Some i =>
      let parsed : string + (string * nat * nat) :=
        if bool_decide (String.get 0 hostport = Some "["%char) then
          match IndexByte hostport "]" with
          | None => inl "missing ']' in address"
          | Some end_ =>
              if (end_ + 1 =? String.length hostport)%nat then inl missingPort
              else if (end_ + 1 =? i)%nat
              then inr (slice hostport 1 end_, 1%nat, (end_ + 1)%nat)
              else if bool_decide (String.get (end_ + 1) hostport = Some ":"%char)
              then inl tooManyColons
              else inl missingPort
          end
        else
          let host := slice hostport 0 i in
          match IndexByte host ":" with
          | Some _ => inl tooManyColons
          | None => inr (host, 0%nat, 0%nat)
          end in
      match parsed with
      | inl why => addrErr why
      | inr (host, j, k) =>
          match IndexByte (sliceFrom hostport j) "[",
                IndexByte (sliceFrom hostport k) "]" with
          | Some _, _ => addrErr "unexpected '[' in address"
          | None, Some _ => addrErr "unexpected ']' in address"
          | None, None => (host, sliceFrom hostport (i + 1), None)
          end
      end
  end.

End net.

(** ** Calls on collaborators *)

Inductive Event : Type :=
| LogLine (line : string)
    (** a line handed to the standard logger *)
| HttpPost (url contentType body : string)
    (** [http.Post] *)
| LimiterAllow (ip : string) (ok : bool)
    (** [limiter.Allow()] on the gate of [ip], and what it answered *)
| HttpError (body : string) (code : Z)
    (** [http.Error] on the response writer *)
| ProxyServeHTTP (timeout : Z).
    (** the request handed to the backend proxy under a deadline *)

(** The answer of [http.Post]: a transport error or a response status. *)
Inductive PostResult : Type :=
| PostFailed (err : string)
| PostStatus (StatusCode : Z).

(** ** Package webhook *)

Module webhook.

Record Notifier : Type := mkNotifier {
  webhookURL : string;
  containerID : string
}.

Definition NewNotifier (webhookURL containerID : string) : Notifier :=
  {| webhookURL := webhookURL; containerID := containerID |}.

(** The map literal of [NotifyRateLimit]. *)
Definition payload (n : Notifier) (expectedRPS receivedRPS : Z)
  : gmap string json.Value :=
  list_to_map
    [ ("container_id", json.VString (containerID n));
      ("limit_expected_rps", json.VInt expectedRPS);
      ("limit_exceeded_rps", json.VInt receivedRPS);
      ("message", json.VString "Rate limit exceeded") ].

Definition member (key text : string) : string :=
  json.quoted key +:+ ":" +:+ text.

(** The body as it goes over the wire: the members in the order of
    their keys, no white space; [idText] is the container identifier as
    a JSON string. *)
Definition wireBodyWith (idText : string) (expectedRPS receivedRPS : Z)
  : string :=
  "{" +:+ (member "container_id" idText
           +:+ "," +:+ member "limit_exceeded_rps" (strconv.Itoa receivedRPS)
           +:+ "," +:+ member "limit_expected_rps" (strconv.Itoa expectedRPS)
           +:+ "," +:+ member "message" (json.quoted "Rate limit exceeded"))
  +:+ "}".

Definition wireBody (containerID : string) (expectedRPS receivedRPS : Z)
  : string :=
  wireBodyWith (json.encodeString containerID) expectedRPS receivedRPS.

(** The payload as the specification writes it, character by
    character: the expected rate before the exceeded one, a space after
    each colon and each comma. *)
Definition specBody (containerID : string) (expectedRPS receivedRPS : Z)
  : string :=
  "{" +:+ json.quoted "container_id" +:+ ": " +:+ json.quoted containerID
  +:+ ", " +:+ json.quoted "limit_expected_rps" +:+ ": "
  +:+ strconv.Itoa expectedRPS
  +:+ ", " +:+ json.quoted "limit_exceeded_rps" +:+ ": "
  +:+ strconv.Itoa receivedRPS
  +:+ ", " +:+ json.quoted "message" +:+ ": "
  +:+ json.quoted "Rate limit exceeded" +:+ "}".

(** The same members in the same order, without the spaces. *)
Definition specBodyCompact (containerID : string)
    (expectedRPS receivedRPS : Z) : string :=
  "{" +:+ (member "container_id" (json.quoted containerID)
           +:+ "," +:+ member "limit_expected_rps" (strconv.Itoa expectedRPS)
           +:+ "," +:+ member "limit_exceeded_rps" (strconv.Itoa receivedRPS)
           +:+ "," +:+ member "message" (json.quoted "Rate limit exceeded"))
  +:+ "}".

(** [NotifyRateLimit]: the returned error ([None] for nil) and the
    calls made.  [post] answers for the HTTP client. *)
Definition NotifyRateLimit (post : string -> string -> string -> PostResult)
    (n : Notifier) (expectedRPS receivedRPS : Z)
  : option string * list Event :=
  if bool_decide (webhookURL n = EmptyString) then
    (None, [LogLine "Webhook URL is not set, skipping notification."])
  else
    let jsonData := json.Marshal (payload n expectedRPS receivedRPS) in
    let call := HttpPost (webhookURL n) "application/json" jsonData in
    match post (webhookURL n) "application/json" jsonData with
    | PostFailed err => (Some err, [call])
    | PostStatus code =>
        (None,
         [call;
          LogLine ("Webhook notification sent, response: " +:+ strconv.Itoa code)])
    end.

End webhook.

(** ** Package config *)

Module config.

Record Config : Type := mkConfig {
  BackendURL : string;
  RateLimit : Z;
  ContainerID : string;
  WebhookURL : string;
  ProxyTimeout : Z;
  MaxIdleConns : Z;
  IdleConnTimeout : Z
}.

(** [os.Getenv]: the empty string for a variable that is not set. *)
Definition Getenv (env : gmap string string) (key : string) : string :=
  default EmptyString (env !! key).

Definition getEnv (env : gmap string string) (key defaultValue : string)
  : string :=
  let value := Getenv env key in
  if bool_decide (value = EmptyString) then defaultValue else value.

(** [getEnvAsInt]: the value and the warning it may log. *)
Definition getEnvAsInt (env : gmap string string) (key : string)
    (defaultValue : Z) : Z * list Event :=
  let value := Getenv env key in
  if bool_decide (value = EmptyString) then (defaultValue, [])
  else
    match strconv.Atoi value with
    | Some intValue => (intValue, [])
    | None =>
        (defaultValue,
         [LogLine ("Warning: Invalid integer value for " +:+ key
                   +:+ ", using default: " +:+ strconv.Itoa defaultValue)])
    end.

(** [LoadConfig].  [env] is the environment once the .env file has been
    merged into it, [dotenvErr] the error of that merge.  The returned
    error of the source is always nil. *)
Definition LoadConfig (env : gmap string string) (dotenvErr : option string)
  : Config * list Event :=
  let warn :=
    match dotenvErr with
    | Some err =>
        [LogLine ("Warning: .env file not found or error loading it: " +:+ err)]
    | None => []
    end in
  let rateLimit := getEnvAsInt env "RATE_LIMIT" 10 in
  let proxyTimeout := getEnvAsInt env "PROXY_TIMEOUT_SECONDS" 30 in
  let maxIdle := getEnvAsInt env "MAX_IDLE_CONNS" 100 in
  let idleTimeout := getEnvAsInt env "IDLE_CONN_TIMEOUT_SECONDS" 90 in
  ({| BackendURL := getEnv env "BACKEND_URL" "http://localhost:8080";
      RateLimit := rateLimit.1;
      ContainerID := getEnv env "CONTAINER_ID" "unknown-container";
      WebhookURL := getEnv env "WEBHOOK_URL" EmptyString;
      ProxyTimeout := wrap64 (proxyTimeout.1 * time.Second);
      MaxIdleConns := maxIdle.1;
      IdleConnTimeout := wrap64 (idleTimeout.1 * time.Second) |},
   warn ++ rateLimit.2 ++ proxyTimeout.2 ++ maxIdle.2 ++ idleTimeout.2).

End config.

(** ** Package config, second source file: the generic reader *)

Module config_generic.

(** The values of the generic [getEnv] that are embedded: the type
    parameter is carried by the default value, as in the type switch of
    the source.  The float64 and Duration instances are not embedded. *)
Inductive EnvValue : Type :=
| VString (s : string)
| VInt (z : Z)
| VBool (b : bool).

(** The default value as the verb v of the logger prints it. *)
Definition format (v : EnvValue) : string :=
  match v with
  | VString s => s
  | VInt z => strconv.Itoa z
  | VBool b => if b then "true" else "false"
  end.

(** [getEnv] at string, int and bool: the value and the warning it may
    log. *)
Definition getEnv (env : gmap string string) (s : string)
    (defaultValue : EnvValue) : EnvValue * list Event :=
  let e := config.Getenv env s in
  if bool_decide (e = EmptyString) then (defaultValue, [])
  else
    match defaultValue with
    | VString _ => (VString e, [])
    | VInt _ =>
        match strconv.Atoi e with
        | Some i => (VInt i, [])
        | None =>
            (defaultValue,
             [LogLine ("Warning: Invalid integer value " +:+ s +:+ "=" +:+ e
                       +:+ ", using default " +:+ format defaultValue)])
        end
    | VBool _ =>
        match strconv.ParseBool e with
        | Some b => (VBool b, [])
        | None =>
            (defaultValue,
             [LogLine ("Warning: Invalid boolean value " +:+ s +:+ "=" +:+ e
                       +:+ ", using default " +:+ format defaultValue)])
        end
    end.

End config_generic.

(** ** Package proxy *)

Module proxy.

(** What the handler reads of a request: the header map (keys in
    canonical form, as the server stores them) and the peer address. *)
Record Request : Type := mkRequest {
  Header : gmap string (list string);
  RemoteAddr : string
}.

(** The state of a [ReverseProxy] the handler works on; the backend
    proxy itself is a collaborator. *)
Record ReverseProxy : Type := mkReverseProxy {
  config : config.Config;
  rateLimiter : ratelimit.RateLimiter;
  notifier : webhook.Notifier
}.

(** [NewReverseProxy].  [urlParse] answers for [url.Parse] with its
    error ([None] for nil).  The result is the error or the proxy; a
    panic of the rate limiter's constructor passes through. *)
Definition NewReverseProxy (urlParse : string -> option string)
    (cfg : config.Config) : result (string + ReverseProxy) :=
  match urlParse (config.BackendURL cfg) with
  | Some err => Ok (inl err)
  | None =>
      let notifier :=
        webhook.NewNotifier (config.WebhookURL cfg) (config.ContainerID cfg) in
      match ratelimit.NewRateLimiter (config.RateLimit cfg) with
      | Panic msg => Panic msg
      | Ok rl =>
          Ok (inr {| config := cfg; rateLimiter := rl; notifier := notifier |})
      end
  end.

(** [getClientIP]. *)
Definition getClientIP (r : Request) : string :=
  let forwarded := textproto.Get (Header r) "X-Forwarded-For" in
  if negb (bool_decide (forwarded = EmptyString)) then forwarded
  else
    let realIP := textproto.Get (Header r) "X-Real-IP" in
    if negb (bool_decide (realIP = EmptyString)) then realIP
    else (net.SplitHostPort (RemoteAddr r)).1.1.

(** A request without either header whose peer address has no colon. *)
Definition bare (r : Request) : bool :=
  bool_decide (textproto.Get (Header r) "X-Forwarded-For" = EmptyString)
  && bool_decide (textproto.Get (Header r) "X-Real-IP" = EmptyString)
  && bool_decide (net.IndexByte (RemoteAddr r) ":" = None).

(** The clock readings one request takes: in [NewRequestTracker] (when
    a tracker is created), in [TrackRequest] and in [Allow]. *)
Record Ticks : Type := mkTicks {
  tickNew : Z;
  tickTrack : Z;
  tickAllow : Z
}.

Definition withLimiter (rp : ReverseProxy) (rl : ratelimit.RateLimiter)
  : ReverseProxy :=
  {| config := config rp; rateLimiter := rl; notifier := notifier rp |}.

(** The value of [currentRPS] in [ServeHTTP]. *)
Definition currentRPS (tk : Ticks) (rp : ReverseProxy) (r : Request) : Z :=
  let '((_, tracker), _) :=
    ratelimit.GetLimiter (tickNew tk) (getClientIP r) (rateLimiter rp) in
  (ratelimit.TrackRequest (tickTrack tk) tracker).1.

(** [ServeHTTP]: the proxy after the request and the calls made, in
    order. *)
Definition ServeHTTP (post : string -> string -> string -> PostResult)
    (tk : Ticks) (rp : ReverseProxy) (r : Request)
  : ReverseProxy * list Event :=
  let clientIP := getClientIP r in
  let '((limiter, tracker), rl1) :=
    ratelimit.GetLimiter (tickNew tk) clientIP (rateLimiter rp) in
  let '(currentRPS, tracker') :=
    ratelimit.TrackRequest (tickTrack tk) tracker in
  let rl2 := ratelimit.storeTracker clientIP tracker' rl1 in
  let serve := ProxyServeHTTP (config.ProxyTimeout (config rp)) in
  if config.RateLimit (config rp) <? currentRPS then
    let '(ok, limiter') := rate.Allow (tickAllow tk) limiter in
    let rl3 := ratelimit.storeLimiter clientIP limiter' rl2 in
    if negb ok then
      let '(err, sent) :=
        webhook.NotifyRateLimit post (notifier rp)
          (config.RateLimit (config rp)) currentRPS in
      (withLimiter rp rl3,
       [LimiterAllow clientIP false;
        LogLine ("Rate limit exceeded for " +:+ clientIP
                 +:+ " - Current RPS: " +:+ strconv.Itoa currentRPS
                 +:+ ", Limit: "
                 +:+ strconv.Itoa (config.RateLimit (config rp)))]
       ++ sent
       ++ match err with
          | Some e => [LogLine ("Failed to send webhook notification: " +:+ e)]
          | None => []
          end
       ++ [HttpError "Too Many Requests" 429])
    else (withLimiter rp rl3, [LimiterAllow clientIP true; serve])
  else (withLimiter rp rl2, [serve]).

(** The calls of the rejecting branch of [ServeHTTP], after the gate
    has answered. *)
Definition rejectionCalls (post : string -> string -> string -> PostResult)
    (rp : ReverseProxy) (clientIP : string) (currentRPS : Z) : list Event :=
  let n := webhook.NotifyRateLimit post (notifier rp)
             (config.RateLimit (config rp)) currentRPS in
  [LogLine ("Rate limit exceeded for " +:+ clientIP
            +:+ " - Current RPS: " +:+ strconv.Itoa currentRPS
            +:+ ", Limit: " +:+ strconv.Itoa (config.RateLimit (config rp)))]
  ++ n.2
  ++ match n.1 with
     | Some e => [LogLine ("Failed to send webhook notification: " +:+ e)]
     | None => []
     end
  ++ [HttpError "Too Many Requests" 429].

(** The proxy holds, for client [ip], a tracker whose window opened at
    [w0] with [c] requests counted, and the gate [lim]. *)
Definition holds (rp : ReverseProxy) (ip : string) (w0 c : Z)
    (lim : rate.Limiter) : Prop :=
  ratelimit.requests (rateLimiter rp) !! ip
    = Some {| ratelimit.windowStart := w0; ratelimit.currentCount := c |}
  /\ ratelimit.clients (rateLimiter rp) !! ip = Some lim.

(** A run of the handler over a list of requests with their clock
    readings: the final proxy and the calls of each request. *)
Fixpoint serveAll (post : string -> string -> string -> PostResult)
    (reqs : list (Ticks * Request)) (rp : ReverseProxy)
  : ReverseProxy * list (list Event) :=
  match reqs with
  | [] => (rp, [])
  | (tk, r) :: rest =>
      let '(rp1, evs) := ServeHTTP post tk rp r in
      let '(rp2, more) := serveAll post rest rp1 in
      (rp2, evs :: more)
  end.

(** What a list of calls shows: the answers of the gate, the outbound
    posts, whether the request was rejected or handed to the backend. *)
Definition gateAnswers (evs : list Event) : list bool :=
  omap (fun e => match e with LimiterAllow _ ok => Some ok | _ => None end) evs.

Definition posts (evs : list Event) : list Event :=
  omap (fun e => match e with HttpPost _ _ _ => Some e | _ => None end) evs.

Definition rejected (evs : list Event) : Prop :=
  HttpError "Too Many Requests" 429 ∈ evs.

Definition forwarded (rp : ReverseProxy) (evs : list Event) : Prop :=
  ProxyServeHTTP (config.ProxyTimeout (config rp)) ∈ evs.

(** The error the backend proxy hands to its error handler: the
    cancellation of the request's context, or any other error with its
    text. *)
Inductive ProxyError : Type :=
| Canceled
| Failed (msg : string).

(** [errorHandler]; [path] is the URL path of the request. *)
Definition errorHandler (path : string) (err : ProxyError) : list Event :=
  match err with
  | Canceled => [LogLine ("Client canceled request: " +:+ path)]
  | Failed msg =>
      [LogLine ("Proxy error: " +:+ msg);
       HttpError "Service Unavailable" 503]
  end.

Definition handedToBackend (evs : list Event) : bool :=
  existsb (fun e => match e with ProxyServeHTTP _ => true | _ => false end) evs.

(** The responses written by the handler itself (status codes). *)
Definition errorResponses (evs : list Event) : list Z :=
  omap (fun e => match e with HttpError _ code => Some code | _ => None end) evs.

(** [ServeHTTP] together with the backend proxy it hands the request
    to: when the backend fails with [err], the backend proxy calls the
    error handler installed by [NewReverseProxy]. *)
Definition serveWithBackend
    (post : string -> string -> string -> PostResult)
    (backend : option ProxyError) (path : string)
    (tk : Ticks) (rp : ReverseProxy) (r : Request)
  : ReverseProxy * list Event :=
  let out := ServeHTTP post tk rp r in
  (out.1,
   out.2 ++ match backend with
            | Some err =>
                if handedToBackend out.2 then errorHandler path err else []
            | None => []
            end).

(** The count each request of a run observes. *)
Fixpoint observedAll (post : string -> string -> string -> PostResult)
    (reqs : list (Ticks * Request)) (rp : ReverseProxy) : list Z :=
  match reqs with
  | [] => []
  | (tk, r) :: rest =>
      currentRPS tk rp r :: observedAll post rest (ServeHTTP post tk rp r).1
  end.

(** The proxy as a machine: requests served and sweeps of the cleanup
    goroutine, in any order. *)
Inductive Step : Type :=
| StepServe (post : string -> string -> string -> PostResult)
    (tk : Ticks) (r : Request)
| StepSweep (now : Z).

Definition runStep (rp : ReverseProxy) (st : Step) : ReverseProxy :=
  match st with
  | StepServe post tk r => (ServeHTTP post tk rp r).1
  | StepSweep now =>
      withLimiter rp (ratelimit.cleanupSweep now (rateLimiter rp))
  end.

Definition runSteps (sts : list Step) (rp : ReverseProxy) : ReverseProxy :=
  foldl runStep rp sts.

Fixpoint served (sts : list Step) : nat :=
  match sts with
  | [] => 0%nat
  | StepServe _ _ _ :: rest => S (served rest)
  | StepSweep _ :: rest => served rest
  end.

End proxy.

(** ** Package main: start-up *)

Module main.

(** [main] up to the construction of the proxy: the configuration is
    loaded and handed to [NewReverseProxy] as it is. *)
Definition main (env : gmap string string) (dotenvErr : option string)
    (urlParse : string -> option string)
  : result (string + proxy.ReverseProxy) * list Event :=
  let '(cfg, evs) := config.LoadConfig env dotenvErr in
  (proxy.NewReverseProxy urlParse cfg,
   evs ++ [LogLine ("Starting reverse proxy → Backend: "
                    +:+ config.BackendURL cfg
                    +:+ " | Rate Limit: " +:+ strconv.Itoa (config.RateLimit cfg)
                    +:+ " requests/sec | Container ID: "
                    +:+ config.ContainerID cfg)]).

End main.

(** * Properties *)


(** ** Durations *)

Section durations.

(** Saturation does not change how a difference compares with a
    duration of ordinary size. *)
Lemma Sub_le_iff (d t u : Z) :
  minInt64 < d <= maxInt64 -> (d <= time.Sub t u <-> d <= t - u).
Proof. unfold time.Sub, minInt64, maxInt64. lia. Qed.

Lemma Sub_lt_iff (d t u : Z) :
  minInt64 <= d < maxInt64 -> (d < time.Sub t u <-> d < t - u).
Proof. unfold time.Sub, minInt64, maxInt64. lia. Qed.

Lemma Second_range : minInt64 < time.Second < maxInt64.
Proof. vm_compute. split; reflexivity. Qed.

Lemma Minute_range : minInt64 < time.Minute < maxInt64.
Proof. vm_compute. split; reflexivity. Qed.

Lemma wrap64_id (z : Z) : minInt64 <= z <= maxInt64 -> wrap64 z = z.
Proof.
  unfold wrap64, minInt64, maxInt64. intros H.
  rewrite Z.mod_small; lia.
Qed.

End durations.

(** ** The request tracker *)

Section request_tracker.

Import ratelimit.

(** A call at least a second after the window opened starts a new
    window at the call's reading and counts the call as its first. *)
Lemma TrackRequest_reset (now : Z) (rt : RequestTracker) :
  time.Second <= now - windowStart rt ->
  TrackRequest now rt = (1, {| windowStart := now; currentCount := 1 |}).
Proof.
  intros H. unfold TrackRequest.
  pose proof Second_range as HS.
  assert ((time.Second <=? time.Sub now (windowStart rt)) = true) as ->.
  { apply Z.leb_le, Sub_le_iff; lia. }
  reflexivity.
Qed.

(** A call less than a second after the window opened keeps the window
    and adds one to its count. *)
Lemma TrackRequest_within (now : Z) (rt : RequestTracker) :
  now - windowStart rt < time.Second ->
  0 <= currentCount rt < maxInt64 ->
  TrackRequest now rt =
    (currentCount rt + 1,
     {| windowStart := windowStart rt; currentCount := currentCount rt + 1 |}).
Proof.
  intros H Hc. unfold TrackRequest.
  pose proof Second_range as HS.
  assert ((time.Second <=? time.Sub now (windowStart rt)) = false) as ->.
  { apply Z.leb_gt. destruct (Z.le_gt_cases time.Second (time.Sub now (windowStart rt))) as [Hle|]; [|lia].
    apply Sub_le_iff in Hle; lia. }
  rewrite wrap64_id; [reflexivity | unfold minInt64; lia].
Qed.

Lemma trackAll_cons (now : Z) (rest : list Z) (rt : RequestTracker) :
  trackAll (now :: rest) rt =
    TrackRequest now rt :: trackAll rest (TrackRequest now rt).2.
Proof. reflexivity. Qed.

Lemma trackAll_length (nows : list Z) (rt : RequestTracker) :
  length (trackAll nows rt) = length nows.
Proof. revert rt. induction nows as [|now rest IH]; intros rt; simpl; auto. Qed.

(** Calls within the window return consecutive counts. *)
Lemma trackAll_within (nows : list Z) (rt : RequestTracker) (i : nat) :
  0 <= currentCount rt ->
  currentCount rt + Z.of_nat (length nows) <= maxInt64 ->
  Forall (fun now => now - windowStart rt < time.Second) nows ->
  (i < length nows)%nat ->
  trackAll nows rt !! i =
    Some (currentCount rt + Z.of_nat i + 1,
          {| windowStart := windowStart rt;
             currentCount := currentCount rt + Z.of_nat i + 1 |}).
Proof.
  revert rt i. induction nows as [|now rest IH]; intros rt i Hc Hn Hall Hi.
  - simpl in Hi. lia.
  - apply Forall_cons in Hall as [Hnow Hrest].
    simpl length in Hn, Hi.
    rewrite trackAll_cons, TrackRequest_within by lia.
    destruct i as [|i].
    + simpl. rewrite Z.add_0_r. reflexivity.
    + rewrite lookup_cons_ne_0 by lia. simpl Nat.pred.
      rewrite IH; simpl; [| lia | lia | exact Hrest | lia].
      f_equal; f_equal; [lia | f_equal; lia].
Qed.

Lemma lastTracker_windowStart_within (nows : list Z) (rt : RequestTracker) :
  0 <= currentCount rt ->
  currentCount rt + Z.of_nat (length nows) <= maxInt64 ->
  Forall (fun now => now - windowStart rt < time.Second) nows ->
  windowStart (lastTracker nows rt) = windowStart rt.
Proof.
  intros Hc Hn Hall. unfold lastTracker.
  destruct (last (trackAll nows rt)) as [p|] eqn:Hl; [|reflexivity].
  rewrite last_lookup in Hl. rewrite trackAll_length in Hl.
  destruct nows as [|now rest]; [discriminate|].
  rewrite (trackAll_within _ _ _ Hc Hn Hall) in Hl by (simpl; lia).
  injection Hl as <-. reflexivity.
Qed.

(** C2.  A call at least one second after [windowStart] resets the
    window to the call's reading and counts the call as the first of the
    new window.  Calls that all fall within one second of the window's
    start return consecutive counts: on a tracker that has counted [c]
    requests in its window the n-th of them returns [c + n], so on a
    new tracker the n-th call returns n; the first call after the second
    has elapsed returns 1. *)
Theorem TrackRequest_counts_window
    (rt : RequestTracker) (nows : list Z) (late : Z) :
  0 <= currentCount rt ->
  currentCount rt + Z.of_nat (length nows) <= maxInt64 ->
  Forall (fun now => now - windowStart rt < time.Second) nows ->
  time.Second <= late - windowStart rt ->
  (forall now rt', time.Second <= now - windowStart rt' ->
     TrackRequest now rt' = (1, {| windowStart := now; currentCount := 1 |}))
  /\ (forall i, (i < length nows)%nat ->
        trackAll nows rt !! i =
          Some (currentCount rt + Z.of_nat i + 1,
                {| windowStart := windowStart rt;
                   currentCount := currentCount rt + Z.of_nat i + 1 |}))
  /\ TrackRequest late (lastTracker nows rt) =
       (1, {| windowStart := late; currentCount := 1 |}).
Proof.
  intros Hc Hn Hall Hlate. split; [|split].
  - intros now rt'. apply TrackRequest_reset.
  - intros i Hi. by apply trackAll_within.
  - apply TrackRequest_reset.
    by rewrite lastTracker_windowStart_within.
Qed.

(** Ten calls in the first second of a new tracker, then one a second
    after its creation. *)
Lemma TrackRequest_counts_window_witness :
  let rt := NewRequestTracker 5000 in
  let nows := [5000; 5001; 5002; 6000; 7000; 8000; 9000; 9001; 9002; 1000004999] in
  map fst (trackAll nows rt) = [1; 2; 3; 4; 5; 6; 7; 8; 9; 10]
  /\ trackAll nows rt !! 9%nat =
       Some (10, {| windowStart := 5000; currentCount := 10 |})
  /\ TrackRequest 1000005000 (lastTracker nows rt) =
       (1, {| windowStart := 1000005000; currentCount := 1 |}).
Proof.
  intros rt nows.
  assert (H0 : 0 <= currentCount rt) by (simpl; lia).
  assert (Hn : currentCount rt + Z.of_nat (length nows) <= maxInt64)
    by (vm_compute; discriminate).
  assert (Hall : Forall (fun now => now - windowStart rt < time.Second) nows)
    by (repeat constructor; vm_compute; reflexivity).
  assert (Hlate : time.Second <= 1000005000 - windowStart rt)
    by (vm_compute; discriminate).
  destruct (TrackRequest_counts_window rt nows 1000005000 H0 Hn Hall Hlate)
    as (_ & Hrun & Hnext).
  split; [reflexivity|]. split; [|exact Hnext].
  apply (Hrun 9%nat). simpl. lia.
Defined.

(** A call never moves the window start backward, whatever the clock
    reads: the window only moves when the reading is at least a second
    past it. *)
Lemma TrackRequest_windowStart_le (now : Z) (rt : RequestTracker) :
  windowStart rt <= windowStart (TrackRequest now rt).2.
Proof.
  unfold TrackRequest. pose proof Second_range as HS.
  destruct (time.Second <=? time.Sub now (windowStart rt)) eqn:E; simpl; [|lia].
  apply Z.leb_le, Sub_le_iff in E; [|lia].
  unfold time.Second, time.Nanosecond in E. lia.
Qed.

Lemma trackAll_windowStart_ge (nows : list Z) (rt : RequestTracker) :
  Forall (Z.le (windowStart rt))
    (map (fun r => windowStart r.2) (trackAll nows rt)).
Proof.
  revert rt. induction nows as [|now rest IH]; intros rt.
  - constructor.
  - rewrite trackAll_cons, map_cons.
    pose proof (TrackRequest_windowStart_le now rt) as Hle.
    constructor; [exact Hle|].
    eapply Forall_impl; [apply IH|].
    intros w Hw. etrans; [exact Hle | exact Hw].
Qed.

(** C8.  Across any sequence of [TrackRequest] calls on one tracker the
    window start never decreases: in the sequence of window starts the
    tracker goes through, every one is at most every later one.  This
    holds for all clock readings, so in particular for non-decreasing
    ones. *)
Theorem windowStart_never_decreases (nows : list Z) (rt : RequestTracker) :
  StronglySorted Z.le (windowStarts nows rt).
Proof.
  unfold windowStarts. revert rt.
  induction nows as [|now rest IH]; intros rt.
  - simpl. repeat constructor.
  - constructor; [|apply trackAll_windowStart_ge].
    rewrite trackAll_cons, map_cons. apply IH.
Qed.

End request_tracker.

(** ** The token bucket gate *)

Section token_bucket.

(** A new gate of capacity one answers its first call with true and is
    left empty. *)
Lemma Allow_new_gate (now i : Z) :
  0 < i ->
  rate.Allow now (rate.NewLimiter (rate.PerInterval i) 1) =
    (true, {| rate.limit := rate.PerInterval i; rate.burst := 1;
              rate.tokens := 0; rate.last := Some now |}).
Proof.
  intros Hi. unfold rate.Allow, rate.NewLimiter, rate.elapsed, rate.fullBucket.
  cbn [rate.limit rate.burst rate.tokens rate.last]. cbv zeta.
  replace (Z.min (1 * i) (1 * i + 0)) with i by lia.
  rewrite Z.leb_refl, Z.sub_diag. reflexivity.
Qed.

(** An empty gate of capacity one asked again before a whole refill
    interval has passed answers false. *)
Lemma Allow_empty_gate_early (now l i : Z) :
  0 < i <= maxInt64 -> now - l < i ->
  (rate.Allow now {| rate.limit := rate.PerInterval i; rate.burst := 1;
                     rate.tokens := 0; rate.last := Some l |}).1 = false.
Proof.
  intros Hi Hgap. unfold rate.Allow, rate.elapsed. cbn [rate.limit rate.burst rate.tokens rate.last].
  assert (Z.max 0 (time.Sub now l) < i) as Hel
    by (unfold time.Sub, minInt64, maxInt64 in *; lia).
  destruct (i <=? Z.min (1 * i) (0 + Z.max 0 (time.Sub now l))) eqn:E; [|done].
  apply Z.leb_le in E. lia.
Qed.

End token_bucket.

(** ** The registry: eviction and pairing *)

Section registry.

Import ratelimit.

Implicit Types (rl : RateLimiter) (ip : string) (t : RequestTracker).

Lemma stale_iff (now : Z) t :
  stale now t = true <-> time.Minute < now - windowStart t.
Proof.
  unfold stale. pose proof Minute_range as HM.
  rewrite Z.ltb_lt. apply Sub_lt_iff. lia.
Qed.

Lemma cleanupEntry_stale (now : Z) rl (e : string * RequestTracker) :
  stale now e.2 = true ->
  cleanupEntry now rl e =
    {| clients := delete e.1 (clients rl); requests := delete e.1 (requests rl);
       rate := rate rl; rps := rps rl |}.
Proof. unfold cleanupEntry, stale. by intros ->. Qed.

Lemma cleanupEntry_fresh (now : Z) rl (e : string * RequestTracker) :
  stale now e.2 = false -> cleanupEntry now rl e = rl.
Proof. unfold cleanupEntry, stale. by intros ->. Qed.

(** Visiting entries only ever deletes: an identity that is absent
    stays absent. *)
Lemma cleanup_entries_absent (now : Z) (l : list (string * RequestTracker)) rl ip :
  requests rl !! ip = None -> clients rl !! ip = None ->
  requests (foldl (cleanupEntry now) rl l) !! ip = None
  /\ clients (foldl (cleanupEntry now) rl l) !! ip = None.
Proof.
  revert rl. induction l as [|e l IH]; intros rl Hr Hc; [done|].
  simpl. apply IH.
  - destruct (stale now e.2) eqn:E.
    + rewrite cleanupEntry_stale by done. simpl.
      rewrite lookup_delete. case_decide; done.
    + by rewrite cleanupEntry_fresh.
  - destruct (stale now e.2) eqn:E.
    + rewrite cleanupEntry_stale by done. simpl.
      rewrite lookup_delete. case_decide; done.
    + by rewrite cleanupEntry_fresh.
Qed.

(** An identity visited with a stale tracker is gone from both maps. *)
Lemma cleanup_entries_evicts (now : Z) (l : list (string * RequestTracker)) rl ip t :
  (ip, t) ∈ l -> stale now t = true ->
  requests (foldl (cleanupEntry now) rl l) !! ip = None
  /\ clients (foldl (cleanupEntry now) rl l) !! ip = None.
Proof.
  revert rl. induction l as [|e l IH]; intros rl Hin Hst.
  - by apply elem_of_nil in Hin.
  - apply elem_of_cons in Hin as [<-|Hin]; simpl.
    + rewrite cleanupEntry_stale by done.
      apply cleanup_entries_absent; simpl; apply lookup_delete_eq.
    + by apply IH.
Qed.

(** An identity never visited with a stale tracker keeps what it has. *)
Lemma cleanup_entries_keeps (now : Z) (l : list (string * RequestTracker)) rl ip :
  (forall t, (ip, t) ∈ l -> stale now t = false) ->
  requests (foldl (cleanupEntry now) rl l) !! ip = requests rl !! ip
  /\ clients (foldl (cleanupEntry now) rl l) !! ip = clients rl !! ip.
Proof.
  revert rl. induction l as [|e l IH]; intros rl Hall; [done|].
  simpl.
  destruct (IH (cleanupEntry now rl e)) as [Hr Hc].
  { intros t Ht. apply Hall. by right. }
  rewrite Hr, Hc.
  destruct (stale now e.2) eqn:E.
  - rewrite cleanupEntry_stale by done. simpl.
    assert (e.1 ≠ ip) as Hne.
    { intros <-. destruct e as [ip' t']. simpl in E.
      rewrite (Hall t') in E; [done | by left]. }
    by rewrite !lookup_delete_ne.
  - by rewrite cleanupEntry_fresh.
Qed.

Lemma cleanupSweep_evicts (now : Z) rl ip t :
  requests rl !! ip = Some t -> stale now t = true ->
  requests (cleanupSweep now rl) !! ip = None
  /\ clients (cleanupSweep now rl) !! ip = None.
Proof.
  intros Hl Hst. unfold cleanupSweep.
  eapply cleanup_entries_evicts; [|exact Hst].
  by apply elem_of_map_to_list.
Qed.

Lemma cleanupSweep_keeps (now : Z) rl ip t :
  requests rl !! ip = Some t -> stale now t = false ->
  requests (cleanupSweep now rl) !! ip = Some t
  /\ clients (cleanupSweep now rl) !! ip = clients rl !! ip.
Proof.
  intros Hl Hst. unfold cleanupSweep. rewrite <- Hl.
  apply cleanup_entries_keeps.
  intros t' Ht'%elem_of_map_to_list. congruence.
Qed.

Lemma cleanupSweep_unknown (now : Z) rl ip :
  requests rl !! ip = None ->
  requests (cleanupSweep now rl) !! ip = None
  /\ clients (cleanupSweep now rl) !! ip = clients rl !! ip.
Proof.
  intros Hl. unfold cleanupSweep. rewrite <- Hl.
  apply cleanup_entries_keeps.
  intros t' Ht'%elem_of_map_to_list. congruence.
Qed.

(** C6.  After a sweep at reading [now], a client whose window start
    lies more than one minute before [now] is absent from the registry
    (from the tracker map and from the gate map), and a client whose
    window start lies at most one minute before [now] is still present,
    with its tracker and its gate as they were. *)
Theorem cleanupSweep_evicts_exactly_the_stale (now : Z) rl ip t :
  requests rl !! ip = Some t ->
  (time.Minute < now - windowStart t ->
     requests (cleanupSweep now rl) !! ip = None
     /\ clients (cleanupSweep now rl) !! ip = None)
  /\ (now - windowStart t <= time.Minute ->
       requests (cleanupSweep now rl) !! ip = Some t
       /\ clients (cleanupSweep now rl) !! ip = clients rl !! ip).
Proof.
  intros Hl. split; intros Hage.
  - apply (cleanupSweep_evicts now rl ip t Hl). by apply stale_iff.
  - apply (cleanupSweep_keeps now rl ip t Hl).
    destruct (stale now t) eqn:E; [|done].
    apply stale_iff in E. lia.
Qed.

(** One client idle for 61 seconds, one seen a second ago. *)
Lemma cleanupSweep_evicts_exactly_the_stale_witness :
  let lim := rate.NewLimiter (rate.Every 100000000) 1 in
  let old := {| windowStart := 0; currentCount := 3 |} in
  let new := {| windowStart := 60000000000; currentCount := 1 |} in
  let rl := {| clients := <["10.0.0.1" := lim]> (<["10.0.0.2" := lim]> ∅);
               requests := <["10.0.0.1" := old]> (<["10.0.0.2" := new]> ∅);
               rate := rate.Every 100000000; rps := 10 |} in
  let now := 61000000000 in
  (requests (cleanupSweep now rl) !! "10.0.0.1" = None
   /\ clients (cleanupSweep now rl) !! "10.0.0.1" = None)
  /\ (requests (cleanupSweep now rl) !! "10.0.0.2" = Some new
      /\ clients (cleanupSweep now rl) !! "10.0.0.2" = Some lim).
Proof.
  intros lim old new rl now. split.
  - apply (cleanupSweep_evicts_exactly_the_stale now rl "10.0.0.1" old).
    + reflexivity.
    + vm_compute. reflexivity.
  - apply (cleanupSweep_evicts_exactly_the_stale now rl "10.0.0.2" new).
    + reflexivity.
    + vm_compute. discriminate.
Defined.

Lemma paired_lookup rl :
  paired rl <->
  forall ip, is_Some (clients rl !! ip) <-> is_Some (requests rl !! ip).
Proof.
  unfold paired. split.
  - intros H ip. by rewrite <- !elem_of_dom, H.
  - intros H. apply set_eq. intros ip. by rewrite !elem_of_dom.
Qed.

(** A new registry knows no client. *)
Lemma NewRateLimiter_paired (n : Z) rl :
  NewRateLimiter n = Ok rl -> paired rl.
Proof.
  unfold NewRateLimiter. destruct (n =? 0); [done|].
  intros [= <-]. unfold paired. simpl. by rewrite !dom_empty_L.
Qed.

Lemma GetLimiter_clients (now : Z) ip rl :
  clients (GetLimiter now ip rl).2 =
    match clients rl !! ip with
    | Some _ => clients rl
    | None => <[ip := rate.NewLimiter (rate rl) 1]> (clients rl)
    end.
Proof.
  unfold GetLimiter.
  destruct (clients rl !! ip), (requests rl !! ip); reflexivity.
Qed.

Lemma GetLimiter_requests (now : Z) ip rl :
  requests (GetLimiter now ip rl).2 =
    match requests rl !! ip with
    | Some _ => requests rl
    | None => <[ip := NewRequestTracker now]> (requests rl)
    end.
Proof.
  unfold GetLimiter.
  destruct (clients rl !! ip), (requests rl !! ip); reflexivity.
Qed.

Lemma GetLimiter_dom (now : Z) ip rl :
  dom (clients (GetLimiter now ip rl).2) = {[ip]} ∪ dom (clients rl)
  /\ dom (requests (GetLimiter now ip rl).2) = {[ip]} ∪ dom (requests rl).
Proof.
  rewrite GetLimiter_clients, GetLimiter_requests. split.
  - destruct (clients rl !! ip) eqn:E.
    + apply elem_of_dom_2 in E. symmetry. by apply subseteq_union_1_L, singleton_subseteq_l.
    + by rewrite dom_insert_L.
  - destruct (requests rl !! ip) eqn:E.
    + apply elem_of_dom_2 in E. symmetry. by apply subseteq_union_1_L, singleton_subseteq_l.
    + by rewrite dom_insert_L.
Qed.

(** [GetLimiter] creates the missing tracker and gate together. *)
Lemma GetLimiter_paired (now : Z) ip rl :
  paired rl -> paired (GetLimiter now ip rl).2.
Proof.
  unfold paired. intros H.
  destruct (GetLimiter_dom now ip rl) as [-> ->]. by rewrite H.
Qed.

(** A sweep removes a tracker and its gate together. *)
Lemma cleanupSweep_paired (now : Z) rl :
  paired rl -> paired (cleanupSweep now rl).
Proof.
  rewrite !paired_lookup. intros H ip. specialize (H ip).
  destruct (requests rl !! ip) as [t|] eqn:Hr.
  - destruct (stale now t) eqn:E.
    + destruct (cleanupSweep_evicts now rl ip t Hr E) as [-> ->]. done.
    + destruct (cleanupSweep_keeps now rl ip t Hr E) as [-> ->]. done.
  - destruct (cleanupSweep_unknown now rl ip Hr) as [-> ->]. done.
Qed.

Lemma steps_paired (ops : list Op) rl :
  paired rl -> paired (steps ops rl).
Proof.
  unfold steps. revert rl. induction ops as [|o ops IH]; intros rl H; [done|].
  simpl. apply IH. destruct o as [now ip|now]; simpl.
  - by apply GetLimiter_paired.
  - by apply cleanupSweep_paired.
Qed.

(** C7.  Through every [GetLimiter] and every sweep, in any order and
    at any clock readings, the tracker map and the gate map of a
    registry have the same key set: a client has a tracker and a gate or
    neither.  A first access creates both, a later access keeps both,
    and a sweep that removes one removes the other. *)
Theorem registry_maps_stay_paired (n : Z) (rl0 : RateLimiter) (ops : list Op) :
  NewRateLimiter n = Ok rl0 ->
  let rl := steps ops rl0 in
  dom (clients rl) = dom (requests rl)
  /\ (forall now ip,
        is_Some (clients (GetLimiter now ip rl).2 !! ip)
        /\ is_Some (requests (GetLimiter now ip rl).2 !! ip))
  /\ (forall now ip,
        clients (cleanupSweep now rl) !! ip = None
        <-> requests (cleanupSweep now rl) !! ip = None).
Proof.
  intros Hnew rl.
  assert (paired rl) as Hp.
  { apply steps_paired. by eapply NewRateLimiter_paired. }
  split; [exact Hp|]. split.
  - intros now ip. destruct (GetLimiter_dom now ip rl) as [Hc Hr].
    rewrite <- !elem_of_dom, Hc, Hr.
    split; apply elem_of_union_l; by apply elem_of_singleton.
  - intros now ip.
    pose proof (cleanupSweep_paired now rl Hp) as Hs.
    rewrite paired_lookup in Hs. specialize (Hs ip).
    rewrite <- !not_eq_None_Some in Hs.
    destruct (clients (cleanupSweep now rl) !! ip),
             (requests (cleanupSweep now rl) !! ip); intuition congruence.
Qed.

(** Two clients arrive, a sweep evicts them, one comes back. *)
Lemma registry_maps_stay_paired_witness :
  let rl0 := {| clients := ∅; requests := ∅;
                rate := rate.Every 100000000; rps := 10 |} in
  let ops := [OpGetLimiter 0 "10.0.0.1"; OpGetLimiter 5 "10.0.0.2";
              OpSweep 61000000000; OpGetLimiter 61000000001 "10.0.0.1"] in
  dom (clients (steps ops rl0)) = dom (requests (steps ops rl0))
  /\ dom (requests (steps ops rl0)) = {["10.0.0.1"]}.
Proof.
  intros rl0 ops. split.
  - apply (registry_maps_stay_paired 10 rl0 ops). reflexivity.
  - apply set_eq. intros ip.
    rewrite elem_of_dom, elem_of_singleton.
    assert (requests (steps ops rl0) =
            {["10.0.0.1" := NewRequestTracker 61000000001]}) as ->
      by (apply map_eq; intros k; vm_compute; reflexivity).
    rewrite lookup_singleton_is_Some. done.
Defined.

End registry.

(** ** Strings: searching and slicing *)

Section string_search.

Import net.
Local Open Scope nat_scope.

Implicit Types (a b s : string) (c x : ascii).

Lemma append_cons x a b : String x a +:+ b = String x (a +:+ b).
Proof. reflexivity. Qed.

Lemma append_nil b : EmptyString +:+ b = b.
Proof. reflexivity. Qed.

Lemma length_append a b :
  String.length (a +:+ b) = String.length a + String.length b.
Proof. induction a as [|x a IH]; [done|]. rewrite append_cons. simpl. by rewrite IH. Qed.

Lemma IndexByte_cons_None x s c :
  IndexByte (String x s) c = None <->
  Ascii.eqb x c = false /\ IndexByte s c = None.
Proof.
  simpl. destruct (Ascii.eqb x c); [intuition discriminate|].
  destruct (IndexByte s c); simpl; intuition discriminate.
Qed.

Lemma IndexByte_append_None a b c :
  IndexByte a c = None -> IndexByte b c = None ->
  IndexByte (a +:+ b) c = None.
Proof.
  induction a as [|x a IH]; intros Ha Hb; [done|].
  apply IndexByte_cons_None in Ha as [Hx Ha].
  rewrite append_cons. apply IndexByte_cons_None. auto.
Qed.

Lemma IndexByte_append_Some a b c i :
  IndexByte a c = None -> IndexByte b c = Some i ->
  IndexByte (a +:+ b) c = Some (String.length a + i).
Proof.
  induction a as [|x a IH]; intros Ha Hb; [done|].
  apply IndexByte_cons_None in Ha as [Hx Ha].
  rewrite append_cons. simpl. rewrite Hx, (IH Ha Hb). done.
Qed.

Lemma LastIndexByte_None s c :
  IndexByte s c = None -> LastIndexByte s c = None.
Proof.
  induction s as [|x s IH]; [done|].
  intros [Hx Hs]%IndexByte_cons_None. simpl. by rewrite (IH Hs), Hx.
Qed.

Lemma LastIndexByte_append_Some a b c i :
  LastIndexByte b c = Some i ->
  LastIndexByte (a +:+ b) c = Some (String.length a + i).
Proof.
  intros Hb. induction a as [|x a IH]; [done|].
  rewrite append_cons. simpl. by rewrite IH.
Qed.

Lemma LastIndexByte_sep b c :
  IndexByte b c = None -> LastIndexByte (String c b) c = Some 0.
Proof.
  intros Hb. simpl. rewrite (LastIndexByte_None _ _ Hb).
  by rewrite Ascii.eqb_refl.
Qed.

Lemma substring_full s : String.substring 0 (String.length s) s = s.
Proof. induction s as [|x s IH]; [done|]. simpl. by rewrite IH. Qed.

Lemma substring_prefix a b :
  String.substring 0 (String.length a) (a +:+ b) = a.
Proof.
  induction a as [|x a IH].
  - simpl. by destruct b.
  - rewrite append_cons. simpl. by rewrite IH.
Qed.

Lemma substring_skip a b k n :
  String.substring (String.length a + k) n (a +:+ b) = String.substring k n b.
Proof. induction a as [|x a IH]; [done|]. rewrite append_cons. simpl. exact IH. Qed.

Lemma slice_prefix a b : slice (a +:+ b) 0 (String.length a) = a.
Proof. unfold slice. rewrite Nat.sub_0_r. apply substring_prefix. Qed.

Lemma sliceFrom_0 s : sliceFrom s 0 = s.
Proof. unfold sliceFrom. rewrite Nat.sub_0_r. apply substring_full. Qed.

Lemma sliceFrom_append a b : sliceFrom (a +:+ b) (String.length a) = b.
Proof.
  unfold sliceFrom. rewrite length_append.
  replace (String.length a + String.length b - String.length a)
    with (String.length b) by lia.
  rewrite <- (Nat.add_0_r (String.length a)) at 1.
  rewrite substring_skip. apply substring_full.
Qed.

Lemma plain_spec s :
  plain s = true <->
  IndexByte s ":" = None /\ IndexByte s "[" = None /\ IndexByte s "]" = None.
Proof.
  unfold plain. rewrite !andb_true_iff, !bool_decide_eq_true. tauto.
Qed.

(** A host without colon or bracket, a colon, a port without colon or
    bracket: the host and the port come back, and no error. *)
Lemma SplitHostPort_host_port (host port : string) :
  plain host = true -> plain port = true ->
  SplitHostPort (host +:+ String ":" port) = (host, port, None).
Proof.
  intros (Hh1 & Hh2 & Hh3)%plain_spec (Hp1 & Hp2 & Hp3)%plain_spec.
  unfold SplitHostPort.
  rewrite (LastIndexByte_append_Some host _ ":" 0 (LastIndexByte_sep _ _ Hp1)).
  rewrite Nat.add_0_r.
  rewrite bool_decide_eq_false_2; last first.
  { destruct host as [|x host].
    - simpl. discriminate.
    - apply IndexByte_cons_None in Hh2 as [Hx _].
      simpl. intros [= ->]. discriminate. }
  rewrite slice_prefix, Hh1, sliceFrom_0.
  rewrite (IndexByte_append_None host _ "[" Hh2)
    by (apply IndexByte_cons_None; done).
  rewrite (IndexByte_append_None host _ "]" Hh3)
    by (apply IndexByte_cons_None; done).
  do 2 f_equal.
  change (host +:+ String ":" port)
    with (host +:+ (String ":" EmptyString +:+ port)).
  unfold sliceFrom. rewrite !length_append. simpl String.length.
  rewrite substring_skip.
  replace (String.length host + (1 + String.length port) - (String.length host + 1))
    with (String.length port) by lia.
  simpl. destruct (String.length port) eqn:E.
  - by destruct port.
  - rewrite <- E. apply substring_full.
Qed.

Lemma append_assoc a b s : (a +:+ b) +:+ s = a +:+ (b +:+ s).
Proof. induction a as [|x a IH]; [done|]. rewrite !append_cons. by rewrite IH. Qed.

Lemma sliceFrom_at s a b n :
  s = a +:+ b -> n = String.length a -> sliceFrom s n = b.
Proof. intros -> ->. apply sliceFrom_append. Qed.

Lemma slice_at s a b1 b2 i j :
  s = a +:+ b1 +:+ b2 -> i = String.length a -> j = i + String.length b1 ->
  slice s i j = b1.
Proof.
  intros -> -> ->. unfold slice.
  replace (String.length a + String.length b1 - String.length a)
    with (String.length b1) by lia.
  rewrite <- (Nat.add_0_r (String.length a)).
  rewrite substring_skip. apply substring_prefix.
Qed.

(** A host in brackets (an IPv6 literal: colons, but no bracket
    inside), a colon, a port: the host comes back without its
    brackets. *)
Lemma SplitHostPort_bracketed (h port : string) :
  IndexByte h "[" = None -> IndexByte h "]" = None -> plain port = true ->
  SplitHostPort (String "[" (h +:+ String "]" (String ":" port)))
    = (h, port, None).
Proof.
  intros Hh1 Hh2 (Hp1 & Hp2 & Hp3)%plain_spec.
  set (hostport := String "[" (h +:+ String "]" (String ":" port))).
  assert (LastIndexByte hostport ":" = Some (String.length h + 2)) as Hi.
  { unfold hostport.
    change (String "[" (h +:+ String "]" (String ":" port)))
      with (String "[" h +:+ String "]" (String ":" port)).
    rewrite (LastIndexByte_append_Some _ _ ":" 1).
    - simpl. f_equal. lia.
    - simpl. rewrite (LastIndexByte_None _ _ Hp1). done. }
  assert (IndexByte hostport "]" = Some (String.length h + 1)) as He.
  { unfold hostport.
    change (String "[" (h +:+ String "]" (String ":" port)))
      with (String "[" h +:+ String "]" (String ":" port)).
    rewrite (IndexByte_append_Some _ _ "]" 0).
    - simpl. f_equal. lia.
    - apply IndexByte_cons_None. done.
    - done. }
  assert (String.length hostport = String.length h + 3 + String.length port) as Hlen.
  { unfold hostport. simpl. rewrite length_append. simpl. lia. }
  unfold SplitHostPort. rewrite Hi, He, Hlen.
  rewrite bool_decide_eq_true_2 by done.
  replace (String.length h + 1 + 1 =? String.length h + 3 + String.length port)
    with false by (symmetry; apply Nat.eqb_neq; lia).
  replace (String.length h + 1 + 1 =? String.length h + 2)
    with true by (symmetry; apply Nat.eqb_eq; lia).
  rewrite (slice_at hostport "[" h (String "]" (String ":" port)) 1
             (String.length h + 1)) by (done || simpl; lia).
  rewrite (sliceFrom_at hostport "[" (h +:+ String "]" (String ":" port)) 1)
    by done.
  rewrite (IndexByte_append_None h _ "[" Hh1)
    by (apply IndexByte_cons_None; split; [done|];
        apply IndexByte_cons_None; done).
  rewrite (sliceFrom_at hostport (String "[" h +:+ String "]" EmptyString)
             (String ":" port) (String.length h + 1 + 1)); first last.
  { rewrite length_append. simpl. lia. }
  { unfold hostport. rewrite append_assoc. done. }
  rewrite (proj2 (IndexByte_cons_None ":" port "]")) by done.
  rewrite (sliceFrom_at hostport
             (String "[" h +:+ String "]" (String ":" EmptyString))
             port (String.length h + 2 + 1)); first last.
  { rewrite length_append. simpl. lia. }
  { unfold hostport. rewrite append_assoc. done. }
  done.
Qed.

End string_search.

(** ** Client identity *)

Section client_identity.

Import proxy.

Lemma Get_forwarded (h : gmap string (list string)) :
  textproto.Get h "X-Forwarded-For" =
    match h !! "X-Forwarded-For" with
    | Some (v :: _) => v
    | _ => EmptyString
    end.
Proof. reflexivity. Qed.

(** The server stores the header under its canonical key, which for
    X-Real-IP ends in a lower-case p. *)
Lemma Get_realIP (h : gmap string (list string)) :
  textproto.Get h "X-Real-IP" =
    match h !! "X-Real-Ip" with
    | Some (v :: _) => v
    | _ => EmptyString
    end.
Proof. reflexivity. Qed.

Lemma getClientIP_cases (r : Request) :
  getClientIP r =
    if bool_decide (textproto.Get (Header r) "X-Forwarded-For" = EmptyString)
    then if bool_decide (textproto.Get (Header r) "X-Real-IP" = EmptyString)
         then (net.SplitHostPort (RemoteAddr r)).1.1
         else textproto.Get (Header r) "X-Real-IP"
    else textproto.Get (Header r) "X-Forwarded-For".
Proof. unfold getClientIP. repeat case_bool_decide; reflexivity. Qed.

(** C5.  The client identity is the first non-empty value among the
    X-Forwarded-For header, the X-Real-IP header and the host part of
    the peer address.  A header value is the first line stored for the
    header, taken whole (a list of hops stays a list of hops).  The host
    part of [host:port] is [host], and of [[host]:port] is [host]: the
    port is stripped. *)
Theorem getClientIP_first_non_empty (r : Request) :
  let forwarded := textproto.Get (Header r) "X-Forwarded-For" in
  let realIP := textproto.Get (Header r) "X-Real-IP" in
  (forwarded ≠ EmptyString -> getClientIP r = forwarded)
  /\ (forwarded = EmptyString -> realIP ≠ EmptyString -> getClientIP r = realIP)
  /\ (forwarded = EmptyString -> realIP = EmptyString ->
        getClientIP r = (net.SplitHostPort (RemoteAddr r)).1.1)
  /\ (forall v vs, Header r !! "X-Forwarded-For" = Some (v :: vs) -> forwarded = v)
  /\ (forall v vs, Header r !! "X-Real-Ip" = Some (v :: vs) -> realIP = v)
  /\ (forall host port,
        net.plain host = true -> net.plain port = true ->
        RemoteAddr r = host +:+ String ":" port ->
        (net.SplitHostPort (RemoteAddr r)).1.1 = host)
  /\ (forall host port,
        net.IndexByte host "[" = None -> net.IndexByte host "]" = None ->
        net.plain port = true ->
        RemoteAddr r = String "[" (host +:+ String "]" (String ":" port)) ->
        (net.SplitHostPort (RemoteAddr r)).1.1 = host).
Proof.
  intros forwarded realIP. rewrite getClientIP_cases.
  fold forwarded realIP.
  repeat split.
  - intros H. by rewrite bool_decide_eq_false_2.
  - intros H1 H2. by rewrite bool_decide_eq_true_2, bool_decide_eq_false_2.
  - intros H1 H2. by rewrite !bool_decide_eq_true_2.
  - intros v vs H. unfold forwarded. by rewrite Get_forwarded, H.
  - intros v vs H. unfold realIP. by rewrite Get_realIP, H.
  - intros host port Hh Hp ->. by rewrite SplitHostPort_host_port.
  - intros host port Hh1 Hh2 Hp ->. by rewrite SplitHostPort_bracketed.
Qed.

(** A request through two proxies, one with only X-Real-IP, one with
    neither header, and one from an IPv6 peer. *)
Lemma getClientIP_first_non_empty_witness :
  getClientIP {| Header := {[ "X-Forwarded-For" := ["203.0.113.7, 10.0.0.1"];
                              "X-Real-Ip" := ["198.51.100.2"] ]};
                 RemoteAddr := "10.0.0.9:4711" |} = "203.0.113.7, 10.0.0.1"
  /\ getClientIP {| Header := {[ "X-Real-Ip" := ["198.51.100.2"] ]};
                    RemoteAddr := "10.0.0.9:4711" |} = "198.51.100.2"
  /\ getClientIP {| Header := ∅; RemoteAddr := "10.0.0.9:4711" |} = "10.0.0.9"
  /\ getClientIP {| Header := ∅; RemoteAddr := "[::1]:4711" |} = "::1".
Proof.
  split; [|split; [|split]].
  - set (r := {| Header := _; RemoteAddr := _ |}).
    destruct (getClientIP_first_non_empty r) as (H1 & _).
    rewrite H1; [reflexivity|]. vm_compute. discriminate.
  - set (r := {| Header := _; RemoteAddr := _ |}).
    destruct (getClientIP_first_non_empty r) as (_ & H2 & _).
    rewrite H2; [reflexivity | reflexivity |]. vm_compute. discriminate.
  - set (r := {| Header := ∅; RemoteAddr := "10.0.0.9:4711" |}).
    destruct (getClientIP_first_non_empty r) as (_ & _ & H3 & _ & _ & H6 & _).
    rewrite H3 by reflexivity.
    apply (H6 "10.0.0.9" "4711"); reflexivity.
  - set (r := {| Header := ∅; RemoteAddr := "[::1]:4711" |}).
    destruct (getClientIP_first_non_empty r) as (_ & _ & H3 & _ & _ & _ & H7).
    rewrite H3 by reflexivity.
    apply (H7 "::1" "4711"); reflexivity.
Defined.

Lemma SplitHostPort_no_colon (addr : string) :
  net.IndexByte addr ":" = None ->
  net.SplitHostPort addr = (EmptyString, EmptyString, Some net.missingPort).
Proof.
  intros H. unfold net.SplitHostPort.
  by rewrite (LastIndexByte_None _ _ H).
Qed.

End client_identity.

(** ** The dispatcher *)

Section dispatcher.

Import proxy.

Implicit Types (post : string -> string -> string -> PostResult)
  (tk : Ticks) (rp : ReverseProxy) (r : Request).

(** [ServeHTTP], with the results of the calls it makes named. *)
Lemma ServeHTTP_eq post tk rp r :
  let ip := getClientIP r in
  let g := ratelimit.GetLimiter (tickNew tk) ip (rateLimiter rp) in
  let tr := ratelimit.TrackRequest (tickTrack tk) g.1.2 in
  let rl2 := ratelimit.storeTracker ip tr.2 g.2 in
  let al := rate.Allow (tickAllow tk) g.1.1 in
  let rl3 := ratelimit.storeLimiter ip al.2 rl2 in
  let serve := ProxyServeHTTP (config.ProxyTimeout (config rp)) in
  ServeHTTP post tk rp r =
    if config.RateLimit (config rp) <? tr.1 then
      if al.1
      then (withLimiter rp rl3, [LimiterAllow ip true; serve])
      else (withLimiter rp rl3,
            LimiterAllow ip false :: rejectionCalls post rp ip tr.1)
    else (withLimiter rp rl2, [serve]).
Proof.
  unfold ServeHTTP, rejectionCalls.
  destruct (ratelimit.GetLimiter _ _ _) as [[lim t] rl1]. cbn [fst snd].
  destruct (ratelimit.TrackRequest _ t) as [n t']. cbn [fst snd].
  destruct (config.RateLimit (config rp) <? n); [|reflexivity].
  destruct (rate.Allow _ lim) as [[|] lim']; cbn [fst snd negb]; [reflexivity|].
  destruct (webhook.NotifyRateLimit _ _ _ _) as [err sent]. cbn [fst snd].
  reflexivity.
Qed.

Lemma currentRPS_eq tk rp r :
  currentRPS tk rp r =
    (ratelimit.TrackRequest (tickTrack tk)
       (ratelimit.GetLimiter (tickNew tk) (getClientIP r) (rateLimiter rp)).1.2).1.
Proof.
  unfold currentRPS.
  by destruct (ratelimit.GetLimiter _ _ _) as [[lim t] rl1].
Qed.

(** The notifier only logs and posts. *)
Lemma NotifyRateLimit_calls post (n : webhook.Notifier) (e o : Z) (ev : Event) :
  ev ∈ (webhook.NotifyRateLimit post n e o).2 ->
  (exists line, ev = LogLine line) \/ (exists u c b, ev = HttpPost u c b).
Proof.
  unfold webhook.NotifyRateLimit. case_bool_decide.
  - simpl. intros ->%list_elem_of_singleton. eauto.
  - destruct (post _ _ _); simpl.
    + intros ->%list_elem_of_singleton. eauto 6.
    + intros [->| ->%list_elem_of_singleton]%elem_of_cons; eauto 6.
Qed.

Lemma rejectionCalls_calls post rp (ip : string) (n : Z) (ev : Event) :
  ev ∈ rejectionCalls post rp ip n ->
  (exists line, ev = LogLine line) \/ (exists u c b, ev = HttpPost u c b)
  \/ ev = HttpError "Too Many Requests" 429.
Proof.
  unfold rejectionCalls. rewrite !elem_of_app.
  intros [H|[H|[H|H]]].
  - apply list_elem_of_singleton in H as ->. eauto.
  - apply NotifyRateLimit_calls in H as [?|?]; eauto.
  - destruct (webhook.NotifyRateLimit _ _ _ _).1; [|by apply elem_of_nil in H].
    apply list_elem_of_singleton in H as ->. eauto.
  - apply list_elem_of_singleton in H as ->. eauto.
Qed.

Lemma rejectionCalls_rejected post rp (ip : string) (n : Z) :
  HttpError "Too Many Requests" 429 ∈ rejectionCalls post rp ip n.
Proof.
  unfold rejectionCalls. rewrite !elem_of_app. do 3 right.
  by apply list_elem_of_singleton.
Qed.

Lemma gateAnswers_none (evs : list Event) :
  (forall ev, ev ∈ evs -> forall ip ok, ev ≠ LimiterAllow ip ok) ->
  gateAnswers evs = [].
Proof.
  induction evs as [|ev evs IH]; intros H; [done|].
  assert (gateAnswers evs = []) as Hrest
    by (apply IH; intros ev' Hev'; apply H; by right).
  destruct ev as [| |ip ok| |]; try exact Hrest.
  by destruct (H (LimiterAllow ip ok) (list_elem_of_here _ _) ip ok).
Qed.

Lemma gateAnswers_rejectionCalls post rp (ip : string) (n : Z) :
  gateAnswers (rejectionCalls post rp ip n) = [].
Proof.
  apply gateAnswers_none. intros ev Hev ip' ok ->.
  apply rejectionCalls_calls in Hev as [[? ?]|[(? & ? & ? & ?)|?]]; done.
Qed.

(** What [GetLimiter] returns is what the maps hold afterwards. *)
Lemma GetLimiter_lookup (now : Z) (ip : string) (rl : ratelimit.RateLimiter) :
  let g := ratelimit.GetLimiter now ip rl in
  ratelimit.clients g.2 !! ip = Some g.1.1
  /\ ratelimit.requests g.2 !! ip = Some g.1.2.
Proof.
  unfold ratelimit.GetLimiter.
  destruct (ratelimit.clients rl !! ip) eqn:Ec,
           (ratelimit.requests rl !! ip) eqn:Er; simpl;
    rewrite ?lookup_insert_eq; auto.
Qed.

(** C1.  With [observed] the count the tracker returns for the request:
    when [observed] is at most the configured limit the gate is not
    consulted (no call of [Allow], the gate left as it was) and the
    request is handed to the backend; when [observed] exceeds the limit
    the gate is consulted exactly once, and the request is rejected if
    and only if the gate answers false (and handed to the backend if and
    only if it answers true). *)
Theorem ServeHTTP_admission post tk rp r :
  let ip := getClientIP r in
  let observed := currentRPS tk rp r in
  let gate := (ratelimit.GetLimiter (tickNew tk) ip (rateLimiter rp)).1.1 in
  let answer := (rate.Allow (tickAllow tk) gate).1 in
  let out := ServeHTTP post tk rp r in
  (observed <= config.RateLimit (config rp) ->
     gateAnswers out.2 = []
     /\ forwarded rp out.2 /\ ¬ rejected out.2
     /\ ratelimit.clients (rateLimiter out.1) !! ip = Some gate)
  /\ (config.RateLimit (config rp) < observed ->
       gateAnswers out.2 = [answer]
       /\ (rejected out.2 <-> answer = false)
       /\ (forwarded rp out.2 <-> answer = true)).
Proof.
  intros ip observed gate answer out.
  unfold out, observed, answer, gate, ip.
  rewrite ServeHTTP_eq, currentRPS_eq. cbv zeta.
  set (g := ratelimit.GetLimiter _ _ _).
  set (tr := ratelimit.TrackRequest _ _).
  set (al := rate.Allow _ _).
  unfold rejected, forwarded. split.
  - intros Hle. apply Z.ltb_ge in Hle. rewrite Hle. cbn [fst snd].
    split; [reflexivity|]. split; [by apply list_elem_of_singleton|].
    split.
    + intros H%list_elem_of_singleton. discriminate.
    + apply GetLimiter_lookup.
  - intros Hlt. apply Z.ltb_lt in Hlt. rewrite Hlt.
    destruct al.1; cbn [fst snd].
    + split; [reflexivity|]. split.
      * split; [|done].
        intros [H|H%list_elem_of_singleton]%elem_of_cons; discriminate.
      * split; [done|]. intros _. right. by apply list_elem_of_singleton.
    + split.
      { unfold gateAnswers. cbn [omap list_omap].
        fold (gateAnswers (rejectionCalls post rp (getClientIP r) tr.1)).
        by rewrite gateAnswers_rejectionCalls. }
      split.
      * split; [done|]. intros _. right. apply rejectionCalls_rejected.
      * split; [|done].
        intros [H|H]%elem_of_cons; [discriminate|].
        apply rejectionCalls_calls in H
          as [[? ?]|[(? & ? & ? & ?)|?]]; discriminate.
Qed.

(** The handler keeps the maps paired. *)
Lemma ServeHTTP_paired post tk rp r :
  ratelimit.paired (rateLimiter rp) ->
  ratelimit.paired (rateLimiter (ServeHTTP post tk rp r).1).
Proof.
  intros Hp. apply (GetLimiter_paired (tickNew tk) (getClientIP r)) in Hp.
  destruct (GetLimiter_lookup (tickNew tk) (getClientIP r) (rateLimiter rp))
    as [Hc Hr].
  apply elem_of_dom_2 in Hc, Hr.
  rewrite ServeHTTP_eq. cbv zeta. unfold ratelimit.paired in *.
  destruct (_ <? _); [destruct (rate.Allow _ _).1|];
    cbn [fst snd withLimiter rateLimiter ratelimit.storeLimiter
         ratelimit.storeTracker ratelimit.clients ratelimit.requests];
    rewrite ?dom_insert_L, Hp;
    rewrite ?(subseteq_union_1_L {[getClientIP r]})
      by (by apply singleton_subseteq_l);
    reflexivity.
Qed.

(** A first request of a client under the limit, and an eleventh
    request in the same second with the gate still full. *)
Lemma ServeHTTP_admission_witness :
  let cfg := {| config.BackendURL := "http://localhost:8080";
                config.RateLimit := 10;
                config.ContainerID := "c1";
                config.WebhookURL := "http://hook";
                config.ProxyTimeout := 30000000000;
                config.MaxIdleConns := 100;
                config.IdleConnTimeout := 90000000000 |} in
  let nt := webhook.NewNotifier "http://hook" "c1" in
  let lim := rate.NewLimiter (rate.Every 100000000) 1 in
  let rp0 := {| config := cfg;
                rateLimiter := {| ratelimit.clients := ∅;
                                  ratelimit.requests := ∅;
                                  ratelimit.rate := rate.Every 100000000;
                                  ratelimit.rps := 10 |};
                notifier := nt |} in
  let rp10 := {| config := cfg;
                 rateLimiter :=
                   {| ratelimit.clients := {[ "10.0.0.9" := lim ]};
                      ratelimit.requests :=
                        {[ "10.0.0.9" := {| ratelimit.windowStart := 0;
                                            ratelimit.currentCount := 10 |} ]};
                      ratelimit.rate := rate.Every 100000000;
                      ratelimit.rps := 10 |};
                 notifier := nt |} in
  let r := {| Header := ∅; RemoteAddr := "10.0.0.9:4711" |} in
  let tk := {| tickNew := 500; tickTrack := 600; tickAllow := 700 |} in
  let post := fun _ _ _ : string => PostStatus 200 in
  gateAnswers (ServeHTTP post tk rp0 r).2 = []
  /\ gateAnswers (ServeHTTP post tk rp10 r).2 = [true].
Proof.
  intros cfg nt lim rp0 rp10 r tk post. split.
  - destruct (ServeHTTP_admission post tk rp0 r) as [H _].
    destruct H as (Hg & _); [vm_compute; discriminate | exact Hg].
  - destruct (ServeHTTP_admission post tk rp10 r) as [_ H].
    destruct H as (Hg & _); [vm_compute; reflexivity | exact Hg].
Defined.

Lemma GetLimiter_known_tracker (now : Z) (ip : string)
    (rl : ratelimit.RateLimiter) (t : ratelimit.RequestTracker) :
  ratelimit.requests rl !! ip = Some t ->
  (ratelimit.GetLimiter now ip rl).1.2 = t.
Proof.
  intros H. unfold ratelimit.GetLimiter. rewrite H.
  by destruct (ratelimit.clients rl !! ip).
Qed.

(** After a request the tracker map holds, under the client's
    identity, the tracker with the request counted. *)
Lemma ServeHTTP_requests post tk rp r :
  ratelimit.requests (rateLimiter (ServeHTTP post tk rp r).1) !! getClientIP r
  = Some (ratelimit.TrackRequest (tickTrack tk)
            (ratelimit.GetLimiter (tickNew tk) (getClientIP r)
               (rateLimiter rp)).1.2).2.
Proof.
  rewrite ServeHTTP_eq. cbv zeta.
  destruct (_ <? _); [destruct (rate.Allow _ _).1|]; cbn [fst snd];
    apply lookup_insert_eq.
Qed.

Lemma bare_spec r :
  bare r = true <->
  textproto.Get (Header r) "X-Forwarded-For" = EmptyString
  /\ textproto.Get (Header r) "X-Real-IP" = EmptyString
  /\ net.IndexByte (RemoteAddr r) ":" = None.
Proof.
  unfold bare. rewrite !andb_true_iff, !bool_decide_eq_true. tauto.
Qed.

Lemma getClientIP_bare r : bare r = true -> getClientIP r = EmptyString.
Proof.
  intros (H1 & H2 & H3)%bare_spec.
  rewrite getClientIP_cases, !bool_decide_eq_true_2 by done.
  by rewrite SplitHostPort_no_colon.
Qed.

(** C9.  A request with neither header whose peer address has no port
    separator resolves to the empty identity.  All such requests
    therefore share one registry entry: after one of them is served, the
    tracker map holds a tracker under the empty string, and that same
    tracker counts the request of any other such client. *)
Theorem getClientIP_bare_shares_empty_identity post tk1 tk2 rp r1 r2 :
  bare r1 = true -> bare r2 = true ->
  getClientIP r1 = EmptyString /\ getClientIP r2 = EmptyString
  /\ exists t,
       ratelimit.requests (rateLimiter (ServeHTTP post tk1 rp r1).1)
         !! EmptyString = Some t
       /\ currentRPS tk2 (ServeHTTP post tk1 rp r1).1 r2
          = (ratelimit.TrackRequest (tickTrack tk2) t).1.
Proof.
  intros H1%getClientIP_bare H2%getClientIP_bare.
  split; [done|]. split; [done|].
  pose proof (ServeHTTP_requests post tk1 rp r1) as Hreq.
  rewrite H1 in Hreq.
  eexists. split; [exact Hreq|].
  rewrite currentRPS_eq, H2.
  by rewrite (GetLimiter_known_tracker _ _ _ _ Hreq).
Qed.

(** Two peers with different addresses, both without a port: the
    second is counted as the first one's second request. *)
Lemma getClientIP_bare_shares_empty_identity_witness :
  let cfg := {| config.BackendURL := "http://localhost:8080";
                config.RateLimit := 10;
                config.ContainerID := "c1";
                config.WebhookURL := EmptyString;
                config.ProxyTimeout := 30000000000;
                config.MaxIdleConns := 100;
                config.IdleConnTimeout := 90000000000 |} in
  let rp := {| config := cfg;
               rateLimiter := {| ratelimit.clients := ∅;
                                 ratelimit.requests := ∅;
                                 ratelimit.rate := rate.Every 100000000;
                                 ratelimit.rps := 10 |};
               notifier := webhook.NewNotifier EmptyString "c1" |} in
  let r1 := {| Header := ∅; RemoteAddr := "10.0.0.1" |} in
  let r2 := {| Header := ∅; RemoteAddr := "192.168.7.7" |} in
  let tk1 := {| tickNew := 10; tickTrack := 20; tickAllow := 30 |} in
  let tk2 := {| tickNew := 40; tickTrack := 50; tickAllow := 60 |} in
  let post := fun _ _ _ : string => PostStatus 200 in
  getClientIP r1 = getClientIP r2
  /\ currentRPS tk2 (ServeHTTP post tk1 rp r1).1 r2 = 2.
Proof.
  intros cfg rp r1 r2 tk1 tk2 post.
  destruct (getClientIP_bare_shares_empty_identity post tk1 tk2 rp r1 r2)
    as (E1 & E2 & t & Ht & Hc); [reflexivity | reflexivity |].
  split; [by rewrite E1, E2|].
  rewrite Hc.
  assert (t = {| ratelimit.windowStart := 10; ratelimit.currentCount := 1 |})
    as -> by (vm_compute in Ht; congruence).
  reflexivity.
Defined.

End dispatcher.

(** ** A client at the limit *)

Section at_the_limit.

Import proxy.

Implicit Types (post : string -> string -> string -> PostResult)
  (tk : Ticks) (rp : ReverseProxy) (r : Request) (ip : string)
  (lim : rate.Limiter).

Lemma GetLimiter_known (now : Z) ip (rl : ratelimit.RateLimiter)
    (t : ratelimit.RequestTracker) lim :
  ratelimit.requests rl !! ip = Some t ->
  ratelimit.clients rl !! ip = Some lim ->
  ratelimit.GetLimiter now ip rl = ((lim, t), rl).
Proof.
  intros Ht Hl. unfold ratelimit.GetLimiter. rewrite Ht, Hl.
  by destruct rl.
Qed.

Lemma GetLimiter_unknown (now : Z) ip (rl : ratelimit.RateLimiter) :
  ratelimit.requests rl !! ip = None ->
  ratelimit.clients rl !! ip = None ->
  (ratelimit.GetLimiter now ip rl).1
    = (rate.NewLimiter (ratelimit.rate rl) 1, ratelimit.NewRequestTracker now).
Proof.
  intros Ht Hl. unfold ratelimit.GetLimiter. by rewrite Ht, Hl.
Qed.

(** One request of a client whose window is open, in terms of what
    [GetLimiter] hands out for it. *)
Lemma ServeHTTP_in_window post tk rp r ip (w0 c : Z) lim :
  getClientIP r = ip ->
  (ratelimit.GetLimiter (tickNew tk) ip (rateLimiter rp)).1
    = (lim, {| ratelimit.windowStart := w0; ratelimit.currentCount := c |}) ->
  tickTrack tk - w0 < time.Second ->
  0 <= c < maxInt64 ->
  let out := ServeHTTP post tk rp r in
  let al := rate.Allow (tickAllow tk) lim in
  config out.1 = config rp /\ notifier out.1 = notifier rp
  /\ (c + 1 <= config.RateLimit (config rp) ->
        out.2 = [ProxyServeHTTP (config.ProxyTimeout (config rp))]
        /\ holds out.1 ip w0 (c + 1) lim)
  /\ (config.RateLimit (config rp) < c + 1 ->
        holds out.1 ip w0 (c + 1) al.2
        /\ out.2 =
             if al.1
             then [LimiterAllow ip true;
                   ProxyServeHTTP (config.ProxyTimeout (config rp))]
             else LimiterAllow ip false :: rejectionCalls post rp ip (c + 1)).
Proof.
  intros Hip Hg Hwin Hc out al. unfold out, al.
  rewrite ServeHTTP_eq. cbv zeta. rewrite Hip, Hg. cbn [fst snd].
  rewrite TrackRequest_within by done.
  cbn [fst snd ratelimit.windowStart ratelimit.currentCount].
  unfold holds.
  destruct (config.RateLimit (config rp) <? c + 1) eqn:E.
  - apply Z.ltb_lt in E.
    destruct (rate.Allow (tickAllow tk) lim) as [[|] lim'] eqn:Ea;
      cbn [fst snd withLimiter config notifier rateLimiter
           ratelimit.storeLimiter ratelimit.storeTracker
           ratelimit.clients ratelimit.requests];
      rewrite !lookup_insert_eq;
      (split; [done|]; split; [done|]; split; [lia|done]).
  - apply Z.ltb_ge in E.
    cbn [fst snd withLimiter config notifier rateLimiter
         ratelimit.storeLimiter ratelimit.storeTracker
         ratelimit.clients ratelimit.requests].
    rewrite lookup_insert_eq.
    split; [done|]. split; [done|]. split; [|lia].
    intros _. split; [done|]. split; [done|].
    destruct (GetLimiter_lookup (tickNew tk) ip (rateLimiter rp)) as [Hl _].
    cbv zeta in Hl. by rewrite Hg in Hl.
Qed.

Lemma serveAll_cons post tk r (rest : list (Ticks * Request)) rp :
  serveAll post ((tk, r) :: rest) rp =
    let o1 := ServeHTTP post tk rp r in
    let o2 := serveAll post rest o1.1 in
    (o2.1, o1.2 :: o2.2).
Proof.
  simpl. destruct (ServeHTTP post tk rp r) as [rp1 evs].
  cbn [fst snd]. by destruct (serveAll post rest rp1).
Qed.

Lemma serveAll_app post (l1 l2 : list (Ticks * Request)) rp :
  serveAll post (l1 ++ l2) rp =
    let o1 := serveAll post l1 rp in
    let o2 := serveAll post l2 o1.1 in
    (o2.1, o1.2 ++ o2.2).
Proof.
  revert rp. induction l1 as [|[tk r] l1 IH]; intros rp.
  - simpl. by destruct (serveAll post l2 rp).
  - rewrite <- app_comm_cons, !serveAll_cons. cbv zeta.
    rewrite IH. reflexivity.
Qed.

(** Requests of one client in its open window, as long as the count
    stays at or below the limit: each is handed to the backend, none
    consults the gate, and the gate stays as it is. *)
Lemma serveAll_below post (reqs : list (Ticks * Request)) rp ip (w0 c : Z) lim :
  holds rp ip w0 c lim ->
  Forall (fun q => getClientIP q.2 = ip /\ tickTrack q.1 - w0 < time.Second) reqs ->
  0 <= c ->
  c + Z.of_nat (length reqs) <= config.RateLimit (config rp) ->
  config.RateLimit (config rp) <= maxInt64 ->
  let out := serveAll post reqs rp in
  out.2 = replicate (length reqs)
            [ProxyServeHTTP (config.ProxyTimeout (config rp))]
  /\ holds out.1 ip w0 (c + Z.of_nat (length reqs)) lim
  /\ config out.1 = config rp /\ notifier out.1 = notifier rp.
Proof.
  revert rp c. induction reqs as [|[tk r] rest IH]; intros rp c Hh Hall Hc Hn Hmax.
  - simpl. rewrite Z.add_0_r. done.
  - apply Forall_cons in Hall as [[Hip Hwin] Hrest].
    simpl length in *. rewrite serveAll_cons. cbv zeta. cbn [fst snd].
    destruct Hh as [Ht Hl].
    destruct (ServeHTTP_in_window post tk rp r ip w0 c lim Hip)
      as (Hcfg & Hnt & Hbelow & _); try done.
    { by rewrite (GetLimiter_known _ _ _ _ _ Ht Hl). }
    { lia. }
    destruct Hbelow as [Hev Hh1]; [lia|].
    destruct (IH (ServeHTTP post tk rp r).1 (c + 1) Hh1 Hrest)
      as (Hevs & Hh2 & Hcfg2 & Hnt2); try (rewrite ?Hcfg; lia).
    rewrite Hevs, Hev, Hcfg2, Hnt2, Hcfg, Hnt.
    split; [done|]. split; [|done].
    replace (c + Z.of_nat (S (length rest)))
      with (c + 1 + Z.of_nat (length rest)) by lia.
    done.
Qed.

Lemma rejectionCalls_ext post rp rp' ip (n : Z) :
  config rp = config rp' -> notifier rp = notifier rp' ->
  rejectionCalls post rp ip n = rejectionCalls post rp' ip n.
Proof. unfold rejectionCalls. by intros -> ->. Qed.

(** A configured notifier posts exactly once, whatever the answer. *)
Lemma posts_NotifyRateLimit post (n : webhook.Notifier) (e o : Z) :
  posts (webhook.NotifyRateLimit post n e o).2 =
    if bool_decide (webhook.webhookURL n = EmptyString) then []
    else [HttpPost (webhook.webhookURL n) "application/json"
            (json.Marshal (webhook.payload n e o))].
Proof.
  unfold webhook.NotifyRateLimit. case_bool_decide; [done|].
  by destruct (post _ _ _).
Qed.

Lemma posts_app (l1 l2 : list Event) : posts (l1 ++ l2) = posts l1 ++ posts l2.
Proof. apply omap_app. Qed.

Lemma posts_rejectionCalls post rp ip (n : Z) :
  posts (rejectionCalls post rp ip n) =
    posts (webhook.NotifyRateLimit post (notifier rp)
             (config.RateLimit (config rp)) n).2.
Proof.
  unfold rejectionCalls. rewrite !posts_app.
  destruct (webhook.NotifyRateLimit _ _ _ _).1; simpl;
    by rewrite app_nil_r.
Qed.

(** C3.  With limit 10 and a client the proxy has not seen: ten
    requests within a second of the first are all handed to the backend
    without the gate being consulted; the eleventh in that second is
    counted as 11, consults the gate, which still holds its one token,
    and is handed to the backend; a twelfth in that second, less than
    one refill interval (100 ms) after the eleventh, consults the gate,
    is refused and answered with 429, with one notification for expected
    10 and exceeded 12 (one post when a target is configured). *)
Theorem twelve_requests_at_limit_10 post (urlParse : string -> option string)
    (cfg : config.Config) rp0 ip tk1 r1 (rest : list (Ticks * Request))
    tk11 r11 tk12 r12 :
  config.RateLimit cfg = 10 ->
  NewReverseProxy urlParse cfg = Ok (inr rp0) ->
  length rest = 9%nat ->
  let reqs := (tk1, r1) :: rest ++ [(tk11, r11); (tk12, r12)] in
  Forall (fun q => getClientIP q.2 = ip
                   /\ tickTrack q.1 - tickNew tk1 < time.Second) reqs ->
  tickAllow tk12 - tickAllow tk11 < 100000000 ->
  let serve := ProxyServeHTTP (config.ProxyTimeout cfg) in
  let nt := webhook.NewNotifier (config.WebhookURL cfg) (config.ContainerID cfg) in
  let notify := webhook.NotifyRateLimit post nt 10 12 in
  (serveAll post reqs rp0).2 =
    replicate 10 [serve]
    ++ [[LimiterAllow ip true; serve];
        [LimiterAllow ip false;
         LogLine ("Rate limit exceeded for " +:+ ip
                  +:+ " - Current RPS: 12, Limit: 10")]
        ++ notify.2
        ++ match notify.1 with
           | Some e => [LogLine ("Failed to send webhook notification: " +:+ e)]
           | None => []
           end
        ++ [HttpError "Too Many Requests" 429]]
  /\ posts (concat (serveAll post reqs rp0).2) =
       if bool_decide (config.WebhookURL cfg = EmptyString) then []
       else [HttpPost (config.WebhookURL cfg) "application/json"
               (json.Marshal (webhook.payload nt 10 12))].
Proof.
  intros Hlimit Hnew Hlen reqs Hall Hgap serve nt notify.
  (* the new proxy *)
  unfold NewReverseProxy in Hnew.
  destruct (urlParse _); [discriminate|].
  rewrite Hlimit in Hnew.
  vm_compute (ratelimit.NewRateLimiter 10) in Hnew.
  injection Hnew as <-. fold nt in reqs |- *.
  set (rp0 := {| config := cfg; rateLimiter := _; notifier := nt |}).
  set (lim0 := rate.NewLimiter (rate.PerInterval 100000000) 1).
  unfold reqs in Hall.
  apply Forall_cons in Hall as [[Hip1 Hwin1] Hall].
  apply Forall_app in Hall as [Hrest Hall].
  apply Forall_cons in Hall as [[Hip11 Hwin11] Hall].
  apply Forall_cons in Hall as [[Hip12 Hwin12] _].
  cbn [fst snd] in *.
  (* the first request creates the tracker and the gate *)
  destruct (ServeHTTP_in_window post tk1 rp0 r1 ip (tickNew tk1) 0 lim0 Hip1)
    as (Hcfg1 & Hnt1 & Hbelow1 & _); [| done | done |].
  { by rewrite GetLimiter_unknown. }
  destruct Hbelow1 as [Hev1 Hh1]; [simpl; lia|].
  set (rp1 := (ServeHTTP post tk1 rp0 r1).1) in *.
  (* the next nine stay at or below the limit *)
  destruct (serveAll_below post rest rp1 ip (tickNew tk1) (0 + 1) lim0 Hh1 Hrest)
    as (Hev9 & Hh10 & Hcfg10 & Hnt10);
    [lia | rewrite Hcfg1, Hlen; simpl; lia
     | rewrite Hcfg1; simpl; rewrite Hlimit; vm_compute; discriminate |].
  rewrite Hlen in Hev9, Hh10.
  set (rp10 := (serveAll post rest rp1).1) in *.
  (* the eleventh consults the full gate *)
  destruct Hh10 as [Ht10 Hl10].
  destruct (ServeHTTP_in_window post tk11 rp10 r11 ip (tickNew tk1) 10 lim0 Hip11)
    as (Hcfg11 & Hnt11 & _ & Habove11); [| done | done |].
  { by rewrite (GetLimiter_known _ _ _ _ _ Ht10 Hl10). }
  destruct Habove11 as [Hh11 Hev11];
    [rewrite Hcfg10, Hcfg1; simpl; lia|].
  unfold lim0 in Hh11, Hev11.
  rewrite Allow_new_gate in Hh11, Hev11 by done.
  cbn [fst snd] in Hh11, Hev11.
  set (rp11 := (ServeHTTP post tk11 rp10 r11).1) in *.
  (* the twelfth finds the gate empty *)
  destruct Hh11 as [Ht11 Hl11].
  destruct (ServeHTTP_in_window post tk12 rp11 r12 ip (tickNew tk1) 11
              {| rate.limit := rate.PerInterval 100000000; rate.burst := 1;
                 rate.tokens := 0; rate.last := Some (tickAllow tk11) |} Hip12)
    as (_ & _ & _ & Habove12); [| done | done |].
  { by rewrite (GetLimiter_known _ _ _ _ _ Ht11 Hl11). }
  destruct Habove12 as [_ Hev12];
    [rewrite Hcfg11, Hcfg10, Hcfg1; simpl; lia|].
  rewrite Allow_empty_gate_early in Hev12 by done.
  rewrite (rejectionCalls_ext post rp11 rp0) in Hev12
    by (rewrite ?Hcfg11, ?Hcfg10, ?Hcfg1, ?Hnt11, ?Hnt10, ?Hnt1; done).
  (* the whole run *)
  assert ((serveAll post reqs rp0).2 =
          replicate 10 [serve]
          ++ [[LimiterAllow ip true; serve];
              LimiterAllow ip false :: rejectionCalls post rp0 ip 12]) as Hrun.
  { unfold reqs. rewrite serveAll_cons. cbv zeta. cbn [fst snd].
    fold rp1. rewrite serveAll_app. cbv zeta. cbn [fst snd]. fold rp10.
    rewrite serveAll_cons. cbv zeta. cbn [fst snd]. fold rp11.
    rewrite serveAll_cons. cbv zeta. cbn [fst snd serveAll].
    rewrite Hev1, Hev9, Hev11, Hev12.
    rewrite Hcfg1, Hcfg10, Hcfg1. reflexivity. }
  split.
  - rewrite Hrun. unfold rejectionCalls. cbn [notifier config rp0].
    rewrite Hlimit. reflexivity.
  - rewrite Hrun, concat_app, posts_app.
    change (posts (concat (replicate 10 [serve]))) with (@nil Event).
    change (concat [[LimiterAllow ip true; serve];
                    LimiterAllow ip false :: rejectionCalls post rp0 ip 12])
      with ([LimiterAllow ip true; serve; LimiterAllow ip false]
            ++ rejectionCalls post rp0 ip 12 ++ []).
    rewrite app_nil_r, posts_app.
    change (posts [LimiterAllow ip true; serve; LimiterAllow ip false])
      with (@nil Event).
    rewrite !app_nil_l, posts_rejectionCalls, posts_NotifyRateLimit.
    cbn [notifier config rp0]. rewrite Hlimit. reflexivity.
Qed.

(** Twelve requests of one peer, ten milliseconds apart, against a
    new proxy with limit 10 and a notification target. *)
Lemma twelve_requests_at_limit_10_witness :
  let cfg := {| config.BackendURL := "http://localhost:8080";
                config.RateLimit := 10;
                config.ContainerID := "c1";
                config.WebhookURL := "http://hook";
                config.ProxyTimeout := 30000000000;
                config.MaxIdleConns := 100;
                config.IdleConnTimeout := 90000000000 |} in
  let nt := webhook.NewNotifier "http://hook" "c1" in
  let rp0 := {| config := cfg;
                rateLimiter := {| ratelimit.clients := ∅;
                                  ratelimit.requests := ∅;
                                  ratelimit.rate := rate.PerInterval 100000000;
                                  ratelimit.rps := 10 |};
                notifier := nt |} in
  let r := {| Header := ∅; RemoteAddr := "10.0.0.9:4711" |} in
  let at_ms (n : Z) :=
    ({| tickNew := n * 10000000; tickTrack := n * 10000000 + 1;
        tickAllow := n * 10000000 + 2 |}, r) in
  let reqs := map at_ms [1; 2; 3; 4; 5; 6; 7; 8; 9; 10; 11; 12] in
  let post := fun _ _ _ : string => PostStatus 200 in
  map gateAnswers (serveAll post reqs rp0).2
    = replicate 10 [] ++ [[true]; [false]]
  /\ posts (concat (serveAll post reqs rp0).2)
     = [HttpPost "http://hook" "application/json"
          (json.Marshal (webhook.payload nt 10 12))].
Proof.
  intros cfg nt rp0 r at_ms reqs post.
  destruct (twelve_requests_at_limit_10 post (fun _ => None) cfg rp0
              "10.0.0.9" (at_ms 1).1 r
              (map at_ms [2; 3; 4; 5; 6; 7; 8; 9; 10])
              (at_ms 11).1 r (at_ms 12).1 r)
    as (Hrun & Hposts).
  - reflexivity.
  - reflexivity.
  - reflexivity.
  - repeat constructor; vm_compute; reflexivity.
  - vm_compute. reflexivity.
  - split; [|exact Hposts].
    change (serveAll post reqs rp0).2
      with (serveAll post
              (((at_ms 1).1, r) :: map at_ms [2; 3; 4; 5; 6; 7; 8; 9; 10]
               ++ [((at_ms 11).1, r); ((at_ms 12).1, r)]) rp0).2.
    rewrite Hrun. reflexivity.
Defined.

End at_the_limit.

(** ** The notification *)

Section notification.

Import webhook.

Lemma encodeBody_plainText (s : string) :
  json.plainText s = true -> json.encodeBody s = s.
Proof.
  unfold json.plainText. induction s as [|c s IH]; [done|].
  cbn [String.list_ascii_of_string forallb].
  intros [[Hc Hs]%andb_true_iff Hrest]%andb_true_iff.
  cbn [json.encodeBody]. rewrite Hc. unfold json.escapeByte. rewrite Hs.
  rewrite (IH Hrest). reflexivity.
Qed.

(** The keys come out sorted: the exceeded rate before the expected
    one. *)
Lemma payload_sorted (n : Notifier) (e o : Z) :
  json.sortKeys (map_to_list (payload n e o)) =
    [ ("container_id", json.VString (containerID n));
      ("limit_exceeded_rps", json.VInt o);
      ("limit_expected_rps", json.VInt e);
      ("message", json.VString "Rate limit exceeded") ].
Proof. vm_compute. reflexivity. Qed.

Lemma Marshal_payload (n : Notifier) (e o : Z) :
  json.Marshal (payload n e o) = wireBody (containerID n) e o.
Proof. unfold json.Marshal. rewrite payload_sorted. reflexivity. Qed.

(** C4, as amended.  With a notification target configured, the
    notifier makes exactly one outbound call: a POST to the target with
    content type application/json whose body is the JSON object with its
    members in key order and no white space,
    container_id, limit_exceeded_rps, limit_expected_rps, message
    (the identifier as a JSON string: as it is between quotes when it
    holds nothing to escape).  With no target configured the notifier
    returns nil and makes no outbound call: it only logs a line. *)
Theorem NotifyRateLimit_wire_contract
    (post : string -> string -> string -> PostResult)
    (n : Notifier) (e o : Z) :
  (webhookURL n ≠ EmptyString ->
     proxy.posts (NotifyRateLimit post n e o).2 =
       [HttpPost (webhookURL n) "application/json"
          (wireBody (containerID n) e o)])
  /\ (json.plainText (containerID n) = true ->
        wireBody (containerID n) e o =
          wireBodyWith (json.quoted (containerID n)) e o)
  /\ (webhookURL n = EmptyString ->
        NotifyRateLimit post n e o =
          (None, [LogLine "Webhook URL is not set, skipping notification."])
        /\ proxy.posts (NotifyRateLimit post n e o).2 = []).
Proof.
  split; [|split].
  - intros Hurl. rewrite posts_NotifyRateLimit, Marshal_payload.
    by rewrite bool_decide_eq_false_2.
  - intros Hid. unfold wireBody, json.encodeString.
    by rewrite encodeBody_plainText.
  - intros Hurl. unfold NotifyRateLimit.
    by rewrite bool_decide_eq_true_2.
Qed.

(** The notification for limit 10 and 12 observed requests, with and
    without a target. *)
Lemma NotifyRateLimit_wire_contract_witness :
  let post := fun _ _ _ : string => PostStatus 200 in
  proxy.posts (NotifyRateLimit post (NewNotifier "http://hook" "c1") 10 12).2
    = [HttpPost "http://hook" "application/json"
         (wireBodyWith (json.quoted "c1") 10 12)]
  /\ NotifyRateLimit post (NewNotifier EmptyString "c1") 10 12
     = (None, [LogLine "Webhook URL is not set, skipping notification."]).
Proof.
  intros post. split.
  - destruct (NotifyRateLimit_wire_contract post
                (NewNotifier "http://hook" "c1") 10 12) as (H1 & H2 & _).
    rewrite H1 by (vm_compute; discriminate).
    rewrite H2 by reflexivity. reflexivity.
  - destruct (NotifyRateLimit_wire_contract post
                (NewNotifier EmptyString "c1") 10 12) as (_ & _ & H3).
    apply H3. reflexivity.
Defined.

(** The body posted for container c1, limit 10 and 12 observed requests
    is not the text of the specification, with or without its spaces:
    the exceeded rate comes before the expected one. *)
Lemma NotifyRateLimit_body_not_as_specified :
  proxy.posts (NotifyRateLimit (fun _ _ _ => PostStatus 200)
                 (NewNotifier "http://hook" "c1") 10 12).2
    ≠ [HttpPost "http://hook" "application/json" (specBody "c1" 10 12)]
  /\ proxy.posts (NotifyRateLimit (fun _ _ _ => PostStatus 200)
                    (NewNotifier "http://hook" "c1") 10 12).2
    ≠ [HttpPost "http://hook" "application/json" (specBodyCompact "c1" 10 12)].
Proof.
  split; intros H; vm_compute in H; discriminate H.
Qed.

End notification.

(** ** Decimal texts *)

Section decimal.

Import strconv.

Lemma parseDigits_acc (d : Decimal.uint) (acc : positive) :
  parseDigits (Z.pos acc) (NilEmpty.string_of_uint d)
    = Some (Z.pos (Pos.of_uint_acc d acc)).
Proof.
  revert acc. induction d as [|d IH|d IH|d IH|d IH|d IH|d IH|d IH|d IH|d IH|d IH];
    intros acc; [reflexivity|..];
    cbn [NilEmpty.string_of_uint parseDigits Pos.of_uint_acc];
    match goal with
    | |- context [digitVal ?c] =>
        let v := eval vm_compute in (digitVal c) in
        change (digitVal c) with v
    end;
    cbv iota beta;
    rewrite <- IH; f_equal; lia.
Qed.

Lemma parseDigits_of_uint (d : Decimal.uint) :
  parseDigits 0 (NilEmpty.string_of_uint d) = Some (Z.of_N (Pos.of_uint d)).
Proof.
  induction d as [|d IH|d IH|d IH|d IH|d IH|d IH|d IH|d IH|d IH|d IH];
    [reflexivity|exact IH|..];
    cbn [NilEmpty.string_of_uint parseDigits Pos.of_uint];
    match goal with
    | |- context [digitVal ?c] =>
        let v := eval vm_compute in (digitVal c) in
        change (digitVal c) with v
    end;
    cbv iota beta; apply parseDigits_acc.
Qed.

Lemma to_uint_not_Nil (p : positive) : Pos.to_uint p ≠ Decimal.Nil.
Proof.
  intros H. pose proof (DecimalPos.Unsigned.of_to p) as E.
  rewrite H in E. discriminate.
Qed.

(** A text of digits not starting with a sign is read as its value. *)
Lemma Atoi_digits (u : Decimal.uint) :
  u ≠ Decimal.Nil ->
  inInt64 (Z.of_N (Pos.of_uint u)) = true ->
  Atoi (NilEmpty.string_of_uint u) = Some (Z.of_N (Pos.of_uint u)).
Proof.
  intros Hu Hr. pose proof (parseDigits_of_uint u) as Hp.
  destruct u; [done|..]; unfold Atoi;
    cbn [NilEmpty.string_of_uint] in *; rewrite Hp, Hr; reflexivity.
Qed.

Lemma Atoi_minus_digits (u : Decimal.uint) :
  u ≠ Decimal.Nil ->
  inInt64 (- Z.of_N (Pos.of_uint u)) = true ->
  Atoi (String "-" (NilEmpty.string_of_uint u))
    = Some (- Z.of_N (Pos.of_uint u)).
Proof.
  intros Hu Hr. pose proof (parseDigits_of_uint u) as Hp.
  destruct u; [done|..]; unfold Atoi;
    cbn [NilEmpty.string_of_uint] in *; rewrite Hp, Hr; reflexivity.
Qed.

Lemma string_of_uint_not_Nil (u : Decimal.uint) :
  u ≠ Decimal.Nil -> NilZero.string_of_uint u = NilEmpty.string_of_uint u.
Proof. by destruct u. Qed.

(** [Atoi] reads back what [Itoa] writes, for every int. *)
Lemma Atoi_Itoa (z : Z) : inInt64 z = true -> Atoi (Itoa z) = Some z.
Proof.
  intros Hz. unfold Itoa. destruct z as [|p|p].
  - reflexivity.
  - pose proof (to_uint_not_Nil p) as Hu.
    pose proof (DecimalPos.Unsigned.of_to p) as E.
    cbn [Z.to_int NilZero.string_of_int].
    rewrite (string_of_uint_not_Nil _ Hu).
    rewrite Atoi_digits; rewrite ?E; done.
  - pose proof (to_uint_not_Nil p) as Hu.
    pose proof (DecimalPos.Unsigned.of_to p) as E.
    cbn [Z.to_int NilZero.string_of_int].
    rewrite (string_of_uint_not_Nil _ Hu).
    rewrite Atoi_minus_digits; rewrite ?E; done.
Qed.

End decimal.

(** ** Configuration and construction *)

Section construction.

Lemma Getenv_set (env : gmap string string) (key v : string) :
  env !! key = Some v -> config.Getenv env key = v.
Proof. unfold config.Getenv. by intros ->. Qed.

(** Whatever integer the text of a variable denotes is taken as it is:
    no sign or range is checked. *)
Lemma getEnvAsInt_accepts (env : gmap string string) (key v : string) (d z : Z) :
  env !! key = Some v -> strconv.Atoi v = Some z ->
  config.getEnvAsInt env key d = (z, []).
Proof.
  intros Hv Hz. unfold config.getEnvAsInt. rewrite (Getenv_set _ _ _ Hv).
  case_bool_decide as E; [by rewrite E in Hz|]. by rewrite Hz.
Qed.

Lemma NewRateLimiter_nonzero (rps : Z) :
  rps ≠ 0 ->
  ratelimit.NewRateLimiter rps =
    Ok {| ratelimit.clients := ∅; ratelimit.requests := ∅;
          ratelimit.rate := rate.Every (Z.quot time.Second rps);
          ratelimit.rps := rps |}.
Proof.
  intros H. unfold ratelimit.NewRateLimiter.
  by apply Z.eqb_neq in H as ->.
Qed.

(** C10.  The constructor divides one second by [rps]: for [rps = 0]
    this is a division by zero and the constructor panics; for
    [rps >= 1] it returns a registry (whose refill interval is positive
    up to 10^9 requests per second).  Nothing upstream enforces
    [rps >= 1]: the loader takes the integer its variable denotes as it
    is, for every int, so RATE_LIMIT=0 yields the limit 0, the
    configuration is handed to the constructor unchanged, and start-up
    panics. *)
Theorem NewRateLimiter_zero_rps_unchecked :
  ratelimit.NewRateLimiter 0 = Panic "runtime error: integer divide by zero"
  /\ (forall rps, 1 <= rps ->
        exists rl, ratelimit.NewRateLimiter rps = Ok rl
                   /\ (rps <= 1000000000 ->
                       0 < Z.quot time.Second rps
                       /\ ratelimit.rate rl
                          = rate.PerInterval (Z.quot time.Second rps)))
  /\ (forall env key v d z,
        env !! key = Some v -> strconv.Atoi v = Some z ->
        config.getEnvAsInt env key d = (z, []))
  /\ (forall env key d z,
        inInt64 z = true -> env !! key = Some (strconv.Itoa z) ->
        config.getEnvAsInt env key d = (z, []))
  /\ (forall env dotenvErr,
        env !! "RATE_LIMIT" = Some "0" ->
        config.RateLimit (config.LoadConfig env dotenvErr).1 = 0)
  /\ (forall urlParse cfg,
        config.RateLimit cfg = 0 ->
        urlParse (config.BackendURL cfg) = None ->
        proxy.NewReverseProxy urlParse cfg
          = Panic "runtime error: integer divide by zero")
  /\ (forall env dotenvErr urlParse,
        env !! "RATE_LIMIT" = Some "0" ->
        urlParse (config.BackendURL (config.LoadConfig env dotenvErr).1) = None ->
        (main.main env dotenvErr urlParse).1
          = Panic "runtime error: integer divide by zero").
Proof.
  assert (Hload : forall env dotenvErr,
            env !! "RATE_LIMIT" = Some "0" ->
            config.RateLimit (config.LoadConfig env dotenvErr).1 = 0).
  { intros env dotenvErr Henv. unfold config.LoadConfig.
    cbn [fst config.RateLimit].
    by rewrite (getEnvAsInt_accepts env "RATE_LIMIT" "0" 10 0 Henv). }
  assert (Hnew : forall urlParse cfg,
            config.RateLimit cfg = 0 ->
            urlParse (config.BackendURL cfg) = None ->
            proxy.NewReverseProxy urlParse cfg
              = Panic "runtime error: integer divide by zero").
  { intros urlParse cfg H0 Hurl. unfold proxy.NewReverseProxy.
    by rewrite Hurl, H0. }
  split; [reflexivity|]. split; [|split; [|split; [|split; [|split]]]].
  - intros rps Hrps. eexists. split.
    + apply NewRateLimiter_nonzero. lia.
    + intros Hmax. cbn [ratelimit.rate].
      assert (0 < Z.quot time.Second rps) as Hpos.
      { apply Z.quot_str_pos. unfold time.Second, time.Nanosecond. lia. }
      split; [exact Hpos|]. unfold rate.Every.
      destruct (Z.quot time.Second rps <=? 0) eqn:E; [|done].
      apply Z.leb_le in E. lia.
  - apply getEnvAsInt_accepts.
  - intros env key d z Hz Henv.
    apply (getEnvAsInt_accepts env key _ d z Henv). by apply Atoi_Itoa.
  - exact Hload.
  - exact Hnew.
  - intros env dotenvErr urlParse Henv Hurl. unfold main.main.
    rewrite (surjective_pairing (config.LoadConfig env dotenvErr)).
    cbn [fst]. apply Hnew; [by apply Hload | exact Hurl].
Qed.

(** A negative limit does not panic either: the interval is not
    positive, and the gate has no limit at all. *)
Lemma NewRateLimiter_negative_rps (rps : Z) :
  rps < 0 ->
  exists rl, ratelimit.NewRateLimiter rps = Ok rl
             /\ ratelimit.rate rl = rate.Inf.
Proof.
  intros H. eexists. split; [apply NewRateLimiter_nonzero; lia|].
  cbn [ratelimit.rate]. unfold rate.Every.
  assert (Z.quot time.Second rps <= 0) as Hq.
  { rewrite <- (Z.opp_involutive rps), Z.quot_opp_r by lia.
    assert (0 <= Z.quot time.Second (- rps)); [|lia].
    apply Z.quot_pos; unfold time.Second, time.Nanosecond; lia. }
  by apply Z.leb_le in Hq as ->.
Qed.

(** Start-up with RATE_LIMIT=0 in the environment. *)
Lemma NewRateLimiter_zero_rps_unchecked_witness :
  let env : gmap string string := {[ "RATE_LIMIT" := "0" ]} in
  config.getEnvAsInt env "RATE_LIMIT" 10 = (0, [])
  /\ config.RateLimit (config.LoadConfig env None).1 = 0
  /\ (main.main env None (fun _ => None)).1
     = Panic "runtime error: integer divide by zero".
Proof.
  intros env.
  destruct NewRateLimiter_zero_rps_unchecked as (_ & _ & H3 & _ & H4 & _ & H6).
  split; [|split].
  - apply (H3 env "RATE_LIMIT" "0"); reflexivity.
  - apply H4. reflexivity.
  - apply H6; reflexivity.
Defined.

End construction.

(** * Further properties of the code *)

(** ** The tracker: reading and counting *)

Section tracker_reading.

Import ratelimit.

Lemma GetCurrentRPS_open (now : Z) (rt : RequestTracker) :
  now - windowStart rt < time.Second -> GetCurrentRPS now rt = currentCount rt.
Proof.
  intros H. unfold GetCurrentRPS. pose proof Second_range as HS.
  destruct (time.Sub now (windowStart rt) <? time.Second) eqn:E; [done|].
  apply Z.ltb_ge, Sub_le_iff in E; lia.
Qed.

Lemma GetCurrentRPS_expired (now : Z) (rt : RequestTracker) :
  time.Second <= now - windowStart rt -> GetCurrentRPS now rt = 0.
Proof.
  intros H. unfold GetCurrentRPS. pose proof Second_range as HS.
  destruct (time.Sub now (windowStart rt) <? time.Second) eqn:E; [|done].
  apply Z.ltb_lt in E.
  assert (time.Second <= time.Sub now (windowStart rt)); [|lia].
  apply Sub_le_iff; lia.
Qed.

Lemma TrackRequest_count_stored (now : Z) (rt : RequestTracker) :
  currentCount (TrackRequest now rt).2 = (TrackRequest now rt).1.
Proof. reflexivity. Qed.

(** X1.  [GetCurrentRPS] and [TrackRequest] agree on the window: a
    call of [TrackRequest] returns one more than what [GetCurrentRPS]
    reads at the same clock reading (in 64-bit arithmetic), whether the
    window is still open or has expired.  After the call,
    [GetCurrentRPS] reads the returned count back as long as less than a
    second has passed since the window start, and 0 afterwards. *)
Theorem GetCurrentRPS_agrees_with_TrackRequest (now now' : Z) (rt : RequestTracker) :
  (TrackRequest now rt).1 = wrap64 (GetCurrentRPS now rt + 1)
  /\ (now' - windowStart (TrackRequest now rt).2 < time.Second ->
        GetCurrentRPS now' (TrackRequest now rt).2 = (TrackRequest now rt).1)
  /\ (time.Second <= now' - windowStart (TrackRequest now rt).2 ->
        GetCurrentRPS now' (TrackRequest now rt).2 = 0).
Proof.
  split; [|split].
  - unfold TrackRequest, GetCurrentRPS. rewrite (Z.ltb_antisym time.Second).
    destruct (time.Second <=? time.Sub now (windowStart rt)); reflexivity.
  - intros H. rewrite GetCurrentRPS_open by done.
    apply TrackRequest_count_stored.
  - apply GetCurrentRPS_expired.
Qed.

(** Three requests in one window, read back half a second and two
    seconds after the window start. *)
Lemma GetCurrentRPS_agrees_with_TrackRequest_witness :
  let rt := {| windowStart := 1000; currentCount := 2 |} in
  (TrackRequest 2000 rt).1 = 3
  /\ GetCurrentRPS 500001000 (TrackRequest 2000 rt).2 = 3
  /\ GetCurrentRPS 2000001000 (TrackRequest 2000 rt).2 = 0.
Proof.
  intros rt.
  destruct (GetCurrentRPS_agrees_with_TrackRequest 2000 500001000 rt)
    as (H1 & H2 & _).
  destruct (GetCurrentRPS_agrees_with_TrackRequest 2000 2000001000 rt)
    as (_ & _ & H3).
  split; [rewrite H1; reflexivity|]. split.
  - rewrite H2; [reflexivity | vm_compute; reflexivity].
  - apply H3. vm_compute. discriminate.
Defined.

Lemma TrackRequest_count_range (now : Z) (rt : RequestTracker) (k : Z) :
  0 <= currentCount rt <= k -> k < maxInt64 ->
  1 <= (TrackRequest now rt).1 <= k + 1.
Proof.
  intros Hc Hk. unfold TrackRequest.
  destruct (time.Second <=? time.Sub now (windowStart rt)); cbn [fst currentCount].
  - rewrite wrap64_id by (vm_compute; split; discriminate). lia.
  - rewrite wrap64_id by (unfold minInt64; lia). lia.
Qed.

Lemma trackAll_count_range (nows : list Z) (rt : RequestTracker) (k : Z)
    (i : nat) (c : Z) (t : RequestTracker) :
  0 <= currentCount rt <= k -> k + Z.of_nat (length nows) <= maxInt64 ->
  trackAll nows rt !! i = Some (c, t) ->
  1 <= c <= k + Z.of_nat i + 1 /\ currentCount t = c.
Proof.
  revert rt k i. induction nows as [|now rest IH]; intros rt k i Hc Hn Hi.
  - by destruct i.
  - simpl length in Hn. rewrite trackAll_cons in Hi.
    pose proof (TrackRequest_count_range now rt k Hc ltac:(lia)) as Hr.
    destruct i as [|i].
    + assert (TrackRequest now rt = (c, t)) as E by (simpl in Hi; congruence).
      pose proof (TrackRequest_count_stored now rt) as Hs.
      rewrite E in Hr, Hs. cbn [fst snd] in Hr, Hs. split; [lia | exact Hs].
    + rewrite lookup_cons_ne_0 in Hi by lia. simpl Nat.pred in Hi.
      destruct (IH (TrackRequest now rt).2 (k + 1) i) as [Hb He]; [| lia | exact Hi |].
      * rewrite TrackRequest_count_stored. lia.
      * split; [lia | exact He].
Qed.

(** X2.  On a new tracker, whatever the clock reads, the count a call
    returns is at least 1 and at most the number of calls made so far:
    the tracker never reports more requests than it has seen, and the
    tracker it leaves holds the count it returned. *)
Theorem TrackRequest_never_overcounts
    (created : Z) (nows : list Z) (i : nat) (c : Z) (t : RequestTracker) :
  Z.of_nat (length nows) <= maxInt64 ->
  trackAll nows (NewRequestTracker created) !! i = Some (c, t) ->
  1 <= c <= Z.of_nat i + 1 /\ currentCount t = c.
Proof.
  intros Hn Hi.
  apply (trackAll_count_range nows (NewRequestTracker created) 0 i c t);
    simpl; (lia || done).
Qed.

(** Calls before and after the second is over, with a clock that also
    steps back. *)
Lemma TrackRequest_never_overcounts_witness :
  trackAll [10; 900000000; 5; 1500000000; 1500000001] (NewRequestTracker 0)
    !! 4%nat
  = Some (2, {| windowStart := 1500000000; currentCount := 2 |})
  /\ 1 <= 2 <= Z.of_nat 4 + 1.
Proof.
  split; [reflexivity|].
  apply (TrackRequest_never_overcounts 0
           [10; 900000000; 5; 1500000000; 1500000001] 4 2
           {| windowStart := 1500000000; currentCount := 2 |}).
  - vm_compute. discriminate.
  - reflexivity.
Defined.

End tracker_reading.

(** ** The registry: lookups, sweeps and the cleanup run *)

Section registry_operations.

Import ratelimit.

Implicit Types (rl : RateLimiter) (ip : string) (t : RequestTracker).

Lemma RateLimiter_eq rl rl' :
  clients rl = clients rl' -> requests rl = requests rl' ->
  rate rl = rate rl' -> rps rl = rps rl' -> rl = rl'.
Proof. destruct rl, rl'; simpl; congruence. Qed.

(** X3.  [GetLimiter] returns the pair the registry holds: for a known
    client it returns the stored gate and tracker and leaves the
    registry exactly as it is, and a second call for the same client, at
    any later reading, returns the pair of the first call and changes
    nothing. *)
Theorem GetLimiter_returns_stored_pair (now1 now2 : Z) ip rl :
  (forall lim t,
     clients rl !! ip = Some lim -> requests rl !! ip = Some t ->
     GetLimiter now1 ip rl = ((lim, t), rl))
  /\ GetLimiter now2 ip (GetLimiter now1 ip rl).2
     = ((GetLimiter now1 ip rl).1, (GetLimiter now1 ip rl).2).
Proof.
  split.
  - intros lim t Hl Ht. by apply GetLimiter_known.
  - destruct (GetLimiter_lookup now1 ip rl) as [Hc Hr]. cbv zeta in Hc, Hr.
    rewrite (GetLimiter_known now2 ip _ _ _ Hr Hc).
    by destruct (GetLimiter now1 ip rl) as [[lim t] rl1].
Qed.

(** A client seen at reading 7 and asked for again at reading 900. *)
Lemma GetLimiter_returns_stored_pair_witness :
  let rl := {| clients := ∅; requests := ∅;
               rate := rate.PerInterval 100000000; rps := 10 |} in
  let g := GetLimiter 7 "10.0.0.1" rl in
  GetLimiter 900 "10.0.0.1" g.2 = (g.1, g.2)
  /\ g.1.2 = NewRequestTracker 7.
Proof.
  intros rl g. split; [|reflexivity].
  apply (GetLimiter_returns_stored_pair 7 900 "10.0.0.1" rl).
Defined.

(** X4.  [GetLimiter] for one client leaves every other client's gate
    and tracker, and the registry's rate, untouched. *)
Theorem GetLimiter_leaves_other_clients (now : Z) ip ip' rl :
  ip ≠ ip' ->
  clients (GetLimiter now ip rl).2 !! ip' = clients rl !! ip'
  /\ requests (GetLimiter now ip rl).2 !! ip' = requests rl !! ip'
  /\ rate (GetLimiter now ip rl).2 = rate rl
  /\ rps (GetLimiter now ip rl).2 = rps rl.
Proof.
  intros Hne. rewrite GetLimiter_clients, GetLimiter_requests.
  split; [|split].
  - destruct (clients rl !! ip); [done|]. by rewrite lookup_insert_ne.
  - destruct (requests rl !! ip); [done|]. by rewrite lookup_insert_ne.
  - unfold GetLimiter.
    by destruct (clients rl !! ip), (requests rl !! ip).
Qed.

Lemma GetLimiter_leaves_other_clients_witness :
  let t := {| windowStart := 3; currentCount := 4 |} in
  let rl := {| clients := ∅; requests := {[ "10.0.0.2" := t ]};
               rate := rate.PerInterval 100000000; rps := 10 |} in
  requests (GetLimiter 7 "10.0.0.1" rl).2 !! "10.0.0.2" = Some t.
Proof.
  intros t rl.
  destruct (GetLimiter_leaves_other_clients 7 "10.0.0.1" "10.0.0.2" rl)
    as (_ & H & _); [discriminate|].
  rewrite H. reflexivity.
Defined.

Lemma cleanupEntry_rate (now : Z) rl (e : string * RequestTracker) :
  rate (cleanupEntry now rl e) = rate rl /\ rps (cleanupEntry now rl e) = rps rl.
Proof. unfold cleanupEntry. by destruct (_ <? _). Qed.

Lemma cleanup_entries_rate (now : Z) (l : list (string * RequestTracker)) rl :
  rate (foldl (cleanupEntry now) rl l) = rate rl
  /\ rps (foldl (cleanupEntry now) rl l) = rps rl.
Proof.
  revert rl. induction l as [|e l IH]; intros rl; [done|].
  simpl. destruct (IH (cleanupEntry now rl e)) as [-> ->].
  apply cleanupEntry_rate.
Qed.

(** What visiting the entries of the tracker map, in any order, leaves
    under each identity. *)
Lemma cleanup_entries_lookup (now : Z) (l : list (string * RequestTracker)) rl ip :
  (forall k t, (k, t) ∈ l <-> requests rl !! k = Some t) ->
  requests (foldl (cleanupEntry now) rl l) !! ip
    = match requests rl !! ip with
      | Some t => if stale now t then None else Some t
      | None => None
      end
  /\ clients (foldl (cleanupEntry now) rl l) !! ip
     = match requests rl !! ip with
       | Some t => if stale now t then None else clients rl !! ip
       | None => clients rl !! ip
       end.
Proof.
  intros Hl. destruct (requests rl !! ip) as [t|] eqn:Hr.
  - destruct (stale now t) eqn:E.
    + apply (cleanup_entries_evicts now l rl ip t); [by apply Hl | done].
    + rewrite <- Hr. apply cleanup_entries_keeps.
      intros t' Ht'%Hl. congruence.
  - rewrite <- Hr. apply cleanup_entries_keeps.
    intros t' Ht'%Hl. congruence.
Qed.

Lemma cleanupSweep_lookup (now : Z) rl ip :
  requests (cleanupSweep now rl) !! ip
    = match requests rl !! ip with
      | Some t => if stale now t then None else Some t
      | None => None
      end
  /\ clients (cleanupSweep now rl) !! ip
     = match requests rl !! ip with
       | Some t => if stale now t then None else clients rl !! ip
       | None => clients rl !! ip
       end.
Proof.
  apply cleanup_entries_lookup. intros k t. apply elem_of_map_to_list.
Qed.

Lemma cleanupSweep_rate (now : Z) rl :
  rate (cleanupSweep now rl) = rate rl /\ rps (cleanupSweep now rl) = rps rl.
Proof. apply cleanup_entries_rate. Qed.

(** X5.  The result of a sweep does not depend on the order in which
    the range visits the tracker map: visiting its entries in any order
    gives the registry of [cleanupSweep]. *)
Theorem cleanupSweep_any_order (now : Z) rl (l : list (string * RequestTracker)) :
  l ≡ₚ map_to_list (requests rl) ->
  foldl (cleanupEntry now) rl l = cleanupSweep now rl.
Proof.
  intros Hp.
  assert (forall k t, (k, t) ∈ l <-> requests rl !! k = Some t) as Hl.
  { intros k t. rewrite Hp. apply elem_of_map_to_list. }
  apply RateLimiter_eq.
  - apply map_eq. intros ip.
    destruct (cleanup_entries_lookup now l rl ip Hl) as [_ ->].
    by destruct (cleanupSweep_lookup now rl ip) as [_ ->].
  - apply map_eq. intros ip.
    destruct (cleanup_entries_lookup now l rl ip Hl) as [-> _].
    by destruct (cleanupSweep_lookup now rl ip) as [-> _].
  - destruct (cleanup_entries_rate now l rl) as [-> _].
    by destruct (cleanupSweep_rate now rl) as [-> _].
  - destruct (cleanup_entries_rate now l rl) as [_ ->].
    by destruct (cleanupSweep_rate now rl) as [_ ->].
Qed.

(** The entries of a two-client registry, visited backwards. *)
Lemma cleanupSweep_any_order_witness :
  let old := {| windowStart := 0; currentCount := 3 |} in
  let new := {| windowStart := 60000000000; currentCount := 1 |} in
  let rl := {| clients := ∅;
               requests := <["10.0.0.1" := old]> (<["10.0.0.2" := new]> ∅);
               rate := rate.PerInterval 100000000; rps := 10 |} in
  foldl (cleanupEntry 61000000000) rl (reverse (map_to_list (requests rl)))
  = cleanupSweep 61000000000 rl.
Proof.
  intros old new rl. apply cleanupSweep_any_order.
  apply reverse_Permutation.
Defined.

(** X6.  A sweep is a filter: the tracker map after a sweep at [now] is
    the tracker map restricted to the trackers that are not stale at
    [now], the gate map is restricted to the clients without a stale
    tracker, and the rate is unchanged. *)
Theorem cleanupSweep_is_filter (now : Z) rl :
  requests (cleanupSweep now rl)
    = filter (fun kv => stale now kv.2 = false) (requests rl)
  /\ clients (cleanupSweep now rl)
     = filter (fun kv => from_option (stale now) false (requests rl !! kv.1) = false)
         (clients rl)
  /\ rate (cleanupSweep now rl) = rate rl
  /\ rps (cleanupSweep now rl) = rps rl.
Proof.
  split; [|split; [|apply cleanupSweep_rate]].
  - apply map_eq. intros ip. apply option_eq. intros t.
    destruct (cleanupSweep_lookup now rl ip) as [-> _].
    rewrite map_lookup_filter_Some. cbn [snd].
    destruct (requests rl !! ip) as [t'|]; [|intuition discriminate].
    destruct (stale now t') eqn:E; split.
    + discriminate.
    + intros [[= ->] H]. congruence.
    + intros [= ->]. done.
    + by intros [H _].
  - apply map_eq. intros ip. apply option_eq. intros lim.
    destruct (cleanupSweep_lookup now rl ip) as [_ ->].
    rewrite map_lookup_filter_Some. cbn [fst].
    destruct (requests rl !! ip) as [t'|]; cbn [from_option]; [|intuition].
    destruct (stale now t'); intuition discriminate.
Qed.

(** X7.  A sweep only removes: the maps after a sweep are sub-maps of
    the maps before it (no entry is added or altered), and a second
    sweep at the same reading changes nothing. *)
Theorem cleanupSweep_only_removes (now : Z) rl :
  requests (cleanupSweep now rl) ⊆ requests rl
  /\ clients (cleanupSweep now rl) ⊆ clients rl
  /\ cleanupSweep now (cleanupSweep now rl) = cleanupSweep now rl.
Proof.
  split; [|split].
  - apply map_subseteq_spec. intros ip t.
    destruct (cleanupSweep_lookup now rl ip) as [-> _].
    destruct (requests rl !! ip) as [t'|]; [|done].
    by destruct (stale now t').
  - apply map_subseteq_spec. intros ip lim.
    destruct (cleanupSweep_lookup now rl ip) as [_ ->].
    destruct (requests rl !! ip) as [t'|]; [|done].
    by destruct (stale now t').
  - apply RateLimiter_eq.
    + apply map_eq. intros ip.
      destruct (cleanupSweep_lookup now (cleanupSweep now rl) ip) as [_ ->].
      destruct (cleanupSweep_lookup now rl ip) as [-> _].
      destruct (requests rl !! ip) as [t'|]; [|done].
      destruct (stale now t') eqn:E; [done|]. by rewrite E.
    + apply map_eq. intros ip.
      destruct (cleanupSweep_lookup now (cleanupSweep now rl) ip) as [-> _].
      destruct (cleanupSweep_lookup now rl ip) as [-> _].
      destruct (requests rl !! ip) as [t'|]; [|done].
      destruct (stale now t') eqn:E; [done|]. by rewrite E.
    + by destruct (cleanupSweep_rate now (cleanupSweep now rl)) as [-> _].
    + by destruct (cleanupSweep_rate now (cleanupSweep now rl)) as [_ ->].
Qed.

Lemma cleanup_cons (now : Z) (ticks : list Z) rl :
  cleanup (now :: ticks) rl = cleanup ticks (cleanupSweep now rl).
Proof. reflexivity. Qed.

Lemma cleanup_rate (ticks : list Z) rl :
  rate (cleanup ticks rl) = rate rl /\ rps (cleanup ticks rl) = rps rl.
Proof.
  revert rl. induction ticks as [|now ticks IH]; intros rl; [done|].
  rewrite cleanup_cons. destruct (IH (cleanupSweep now rl)) as [-> ->].
  apply cleanupSweep_rate.
Qed.

(** X8.  The cleanup run over a registry that is otherwise left alone:
    after the sweeps at the given ticks a client is still registered,
    with its tracker and gate unchanged, exactly when none of the ticks
    found its tracker stale; otherwise it is gone from both maps. *)
Theorem cleanup_keeps_the_survivors (ticks : list Z) rl ip :
  requests (cleanup ticks rl) !! ip
    = match requests rl !! ip with
      | Some t => if survives ticks t then Some t else None
      | None => None
      end
  /\ clients (cleanup ticks rl) !! ip
     = match requests rl !! ip with
       | Some t => if survives ticks t then clients rl !! ip else None
       | None => clients rl !! ip
       end.
Proof.
  revert rl. induction ticks as [|now ticks IH]; intros rl.
  - simpl. by destruct (requests rl !! ip).
  - rewrite cleanup_cons.
    destruct (IH (cleanupSweep now rl)) as [-> ->].
    destruct (cleanupSweep_lookup now rl ip) as [-> ->].
    destruct (requests rl !! ip) as [t|]; [|done].
    unfold survives. cbn [forallb].
    destruct (stale now t); cbn [negb andb]; done.
Qed.

(** X9.  A client evicted by a sweep starts afresh: its next
    [GetLimiter] hands out a new tracker (no request counted, window
    opening at that reading) and a new, full gate at the registry's
    rate. *)
Theorem evicted_client_starts_afresh (now now' : Z) rl ip t :
  requests rl !! ip = Some t ->
  time.Minute < now - windowStart t ->
  (GetLimiter now' ip (cleanupSweep now rl)).1
    = (rate.NewLimiter (rate rl) 1, NewRequestTracker now').
Proof.
  intros Ht Hold%stale_iff.
  destruct (cleanupSweep_evicts now rl ip t Ht Hold) as [Hr Hc].
  rewrite (GetLimiter_unknown now' ip _ Hr Hc).
  by destruct (cleanupSweep_rate now rl) as [-> _].
Qed.

(** A client with eleven requests counted and a drained gate, swept
    after 61 seconds and seen again. *)
Lemma evicted_client_starts_afresh_witness :
  let t := {| windowStart := 0; currentCount := 11 |} in
  let drained := {| rate.limit := rate.PerInterval 100000000; rate.burst := 1;
                    rate.tokens := 0; rate.last := Some 900 |} in
  let rl := {| clients := {[ "10.0.0.1" := drained ]};
               requests := {[ "10.0.0.1" := t ]};
               rate := rate.PerInterval 100000000; rps := 10 |} in
  (GetLimiter 62000000000 "10.0.0.1" (cleanupSweep 61000000000 rl)).1
    = (rate.NewLimiter (rate.PerInterval 100000000) 1,
       NewRequestTracker 62000000000).
Proof.
  intros t drained rl.
  apply (evicted_client_starts_afresh 61000000000 62000000000 rl "10.0.0.1" t).
  - reflexivity.
  - vm_compute. reflexivity.
Defined.

End registry_operations.

(** ** The handler: isolation, first requests, counting *)

Section handler.

Import proxy.

Implicit Types (post : string -> string -> string -> PostResult)
  (tk : Ticks) (rp : ReverseProxy) (r : Request) (ip : string).

Lemma ServeHTTP_config post tk rp r :
  config (ServeHTTP post tk rp r).1 = config rp
  /\ notifier (ServeHTTP post tk rp r).1 = notifier rp.
Proof.
  rewrite ServeHTTP_eq. cbv zeta.
  by destruct (_ <? _); [destruct (rate.Allow _ _).1|].
Qed.

Lemma ServeHTTP_rateLimiter post tk rp r :
  let ip := getClientIP r in
  let g := ratelimit.GetLimiter (tickNew tk) ip (rateLimiter rp) in
  let tr := ratelimit.TrackRequest (tickTrack tk) g.1.2 in
  ratelimit.requests (rateLimiter (ServeHTTP post tk rp r).1)
    = <[ip := tr.2]> (ratelimit.requests g.2)
  /\ (ratelimit.clients (rateLimiter (ServeHTTP post tk rp r).1)
        = ratelimit.clients g.2
      \/ exists lim, ratelimit.clients (rateLimiter (ServeHTTP post tk rp r).1)
                      = <[ip := lim]> (ratelimit.clients g.2))
  /\ ratelimit.rate (rateLimiter (ServeHTTP post tk rp r).1)
     = ratelimit.rate (rateLimiter rp).
Proof.
  rewrite ServeHTTP_eq. cbv zeta.
  assert (ratelimit.rate
            (ratelimit.GetLimiter (tickNew tk) (getClientIP r) (rateLimiter rp)).2
          = ratelimit.rate (rateLimiter rp)) as Hrate.
  { unfold ratelimit.GetLimiter.
    by destruct (ratelimit.clients _ !! _), (ratelimit.requests _ !! _). }
  destruct (_ <? _); [destruct (rate.Allow _ _).1|];
    cbn [fst snd withLimiter rateLimiter ratelimit.storeLimiter
         ratelimit.storeTracker ratelimit.clients ratelimit.requests
         ratelimit.rate];
    (split; [done|]; split; [eauto | done]).
Qed.

(** X10.  Serving a request of one client leaves every other client's
    tracker and gate as they are, and never changes the configuration,
    the notifier or the registry's rate. *)
Theorem ServeHTTP_leaves_other_clients post tk rp r ip :
  ip ≠ getClientIP r ->
  let rp' := (ServeHTTP post tk rp r).1 in
  ratelimit.requests (rateLimiter rp') !! ip
    = ratelimit.requests (rateLimiter rp) !! ip
  /\ ratelimit.clients (rateLimiter rp') !! ip
     = ratelimit.clients (rateLimiter rp) !! ip
  /\ config rp' = config rp /\ notifier rp' = notifier rp
  /\ ratelimit.rate (rateLimiter rp') = ratelimit.rate (rateLimiter rp).
Proof.
  intros Hne rp'. unfold rp'.
  destruct (ServeHTTP_rateLimiter post tk rp r) as (Hr & Hc & Hrate).
  cbv zeta in Hr, Hc.
  destruct (ServeHTTP_config post tk rp r) as [Hcfg Hnt].
  split; [|split; [|done]].
  - rewrite Hr, lookup_insert_ne, GetLimiter_requests by done.
    destruct (ratelimit.requests (rateLimiter rp) !! getClientIP r); [done|].
    by rewrite lookup_insert_ne.
  - assert (ratelimit.clients
              (ratelimit.GetLimiter (tickNew tk) (getClientIP r) (rateLimiter rp)).2
              !! ip = ratelimit.clients (rateLimiter rp) !! ip) as Hg.
    { rewrite GetLimiter_clients.
      destruct (ratelimit.clients (rateLimiter rp) !! getClientIP r); [done|].
      by rewrite lookup_insert_ne. }
    destruct Hc as [-> | [lim ->]]; [done|].
    by rewrite lookup_insert_ne.
Qed.

(** A request of 10.0.0.9 against a registry that knows 10.0.0.2. *)
Lemma ServeHTTP_leaves_other_clients_witness :
  let cfg := {| config.BackendURL := "http://localhost:8080";
                config.RateLimit := 10; config.ContainerID := "c1";
                config.WebhookURL := EmptyString;
                config.ProxyTimeout := 30000000000;
                config.MaxIdleConns := 100;
                config.IdleConnTimeout := 90000000000 |} in
  let t := {| ratelimit.windowStart := 3; ratelimit.currentCount := 4 |} in
  let rp := {| config := cfg;
               rateLimiter :=
                 {| ratelimit.clients := ∅;
                    ratelimit.requests := {[ "10.0.0.2" := t ]};
                    ratelimit.rate := rate.PerInterval 100000000;
                    ratelimit.rps := 10 |};
               notifier := webhook.NewNotifier EmptyString "c1" |} in
  let r := {| Header := ∅; RemoteAddr := "10.0.0.9:4711" |} in
  let tk := {| tickNew := 10; tickTrack := 20; tickAllow := 30 |} in
  ratelimit.requests
    (rateLimiter (ServeHTTP (fun _ _ _ => PostStatus 200) tk rp r).1)
    !! "10.0.0.2" = Some t.
Proof.
  intros cfg t rp r tk.
  destruct (ServeHTTP_leaves_other_clients (fun _ _ _ => PostStatus 200)
              tk rp r "10.0.0.2") as (H & _).
  - vm_compute. discriminate.
  - rewrite H. reflexivity.
Defined.

Lemma TrackRequest_new (now created : Z) :
  (ratelimit.TrackRequest now (ratelimit.NewRequestTracker created)).1 = 1.
Proof.
  unfold ratelimit.TrackRequest, ratelimit.NewRequestTracker.
  cbn [ratelimit.windowStart ratelimit.currentCount].
  by destruct (time.Second <=? time.Sub now created).
Qed.

Lemma GetLimiter_unknown_tracker (now : Z) ip (rl : ratelimit.RateLimiter) :
  ratelimit.requests rl !! ip = None ->
  (ratelimit.GetLimiter now ip rl).1.2 = ratelimit.NewRequestTracker now.
Proof.
  intros H. unfold ratelimit.GetLimiter. rewrite H.
  by destruct (ratelimit.clients rl !! ip).
Qed.

(** X11.  The first request of an identity the registry does not know
    is counted as 1, at any clock readings.  With a limit of at least 1
    it is handed to the backend without the gate being consulted; with a
    limit below 1 even this first request goes through the gate. *)
Theorem ServeHTTP_first_request post tk rp r :
  ratelimit.requests (rateLimiter rp) !! getClientIP r = None ->
  currentRPS tk rp r = 1
  /\ (1 <= config.RateLimit (config rp) ->
        (ServeHTTP post tk rp r).2
          = [ProxyServeHTTP (config.ProxyTimeout (config rp))])
  /\ (config.RateLimit (config rp) < 1 ->
        exists ok, gateAnswers (ServeHTTP post tk rp r).2 = [ok]).
Proof.
  intros Hnew.
  assert (currentRPS tk rp r = 1) as Hone.
  { by rewrite currentRPS_eq, GetLimiter_unknown_tracker, TrackRequest_new. }
  split; [exact Hone|].
  rewrite currentRPS_eq in Hone.
  rewrite ServeHTTP_eq. cbv zeta. rewrite Hone. split.
  - intros Hl. by apply Z.ltb_ge in Hl as ->.
  - intros Hl. apply Z.ltb_lt in Hl as ->.
    destruct (rate.Allow _ _).1; cbn [snd]; eexists.
    + reflexivity.
    + unfold gateAnswers. cbn [omap list_omap].
      fold (gateAnswers (rejectionCalls post rp (getClientIP r) 1)).
      by rewrite gateAnswers_rejectionCalls.
Qed.

(** An unknown peer, whose first readings are two seconds apart. *)
Lemma ServeHTTP_first_request_witness :
  let cfg := {| config.BackendURL := "http://localhost:8080";
                config.RateLimit := 1; config.ContainerID := "c1";
                config.WebhookURL := EmptyString;
                config.ProxyTimeout := 30000000000;
                config.MaxIdleConns := 100;
                config.IdleConnTimeout := 90000000000 |} in
  let rp := {| config := cfg;
               rateLimiter :=
                 {| ratelimit.clients := ∅; ratelimit.requests := ∅;
                    ratelimit.rate := rate.PerInterval 1000000000;
                    ratelimit.rps := 1 |};
               notifier := webhook.NewNotifier EmptyString "c1" |} in
  let r := {| Header := ∅; RemoteAddr := "10.0.0.9:4711" |} in
  let tk := {| tickNew := 10; tickTrack := 2000000010;
               tickAllow := 2000000020 |} in
  (ServeHTTP (fun _ _ _ => PostStatus 200) tk rp r).2
    = [ProxyServeHTTP 30000000000].
Proof.
  intros cfg rp r tk.
  destruct (ServeHTTP_first_request (fun _ _ _ => PostStatus 200) tk rp r)
    as (_ & H & _); [reflexivity|].
  apply H. vm_compute. discriminate.
Defined.

Lemma errorResponses_app (l1 l2 : list Event) :
  errorResponses (l1 ++ l2) = errorResponses l1 ++ errorResponses l2.
Proof. apply omap_app. Qed.

Lemma handedToBackend_app (l1 l2 : list Event) :
  handedToBackend (l1 ++ l2) = handedToBackend l1 || handedToBackend l2.
Proof. apply existsb_app. Qed.

Lemma NotifyRateLimit_no_response post (n : webhook.Notifier) (e o : Z) :
  errorResponses (webhook.NotifyRateLimit post n e o).2 = []
  /\ handedToBackend (webhook.NotifyRateLimit post n e o).2 = false.
Proof.
  unfold webhook.NotifyRateLimit. case_bool_decide; [done|].
  by destruct (post _ _ _).
Qed.

(** The rejecting branch writes the 429 and nothing else, whatever the
    notification does. *)
Lemma rejectionCalls_response post rp ip (n : Z) :
  errorResponses (rejectionCalls post rp ip n) = [429]
  /\ handedToBackend (rejectionCalls post rp ip n) = false.
Proof.
  unfold rejectionCalls.
  rewrite !errorResponses_app, !handedToBackend_app.
  destruct (NotifyRateLimit_no_response post (notifier rp)
              (config.RateLimit (config rp)) n) as [-> ->].
  by destruct (webhook.NotifyRateLimit _ _ _ _).1.
Qed.

(** A request is either handed to the backend, and then the handler
    writes no response of its own, or answered with 429 and not handed
    on. *)
Lemma ServeHTTP_verdict post tk rp r :
  (handedToBackend (ServeHTTP post tk rp r).2 = true
   /\ errorResponses (ServeHTTP post tk rp r).2 = [])
  \/ (handedToBackend (ServeHTTP post tk rp r).2 = false
      /\ errorResponses (ServeHTTP post tk rp r).2 = [429]).
Proof.
  rewrite ServeHTTP_eq. cbv zeta.
  destruct (_ <? _); [destruct (rate.Allow _ _).1|]; cbn [snd]; [by left| |by left].
  right.
  destruct (rejectionCalls_response post rp (getClientIP r)
              (ratelimit.TrackRequest (tickTrack tk)
                 (ratelimit.GetLimiter (tickNew tk) (getClientIP r)
                    (rateLimiter rp)).1.2).1) as [Hr Hh].
  split.
  - change (handedToBackend (LimiterAllow ?i false :: ?l))
      with (handedToBackend l). exact Hh.
  - change (errorResponses (LimiterAllow ?i false :: ?l))
      with (errorResponses l). exact Hr.
Qed.

(** X12.  What the notification does (success, any status, transport
    error) has no effect on the admission: for any two behaviours of the
    HTTP client, the proxy state after the request, the gate's answers,
    the response written and whether the request reaches the backend are
    the same. *)
Theorem ServeHTTP_ignores_notification_outcome post1 post2 tk rp r :
  (ServeHTTP post1 tk rp r).1 = (ServeHTTP post2 tk rp r).1
  /\ gateAnswers (ServeHTTP post1 tk rp r).2
     = gateAnswers (ServeHTTP post2 tk rp r).2
  /\ errorResponses (ServeHTTP post1 tk rp r).2
     = errorResponses (ServeHTTP post2 tk rp r).2
  /\ handedToBackend (ServeHTTP post1 tk rp r).2
     = handedToBackend (ServeHTTP post2 tk rp r).2.
Proof.
  rewrite !ServeHTTP_eq. cbv zeta.
  destruct (_ <? _); [destruct (rate.Allow _ _).1|]; cbn [fst snd]; try done.
  set (ip := getClientIP r). set (n := (ratelimit.TrackRequest _ _).1).
  split; [done|].
  destruct (rejectionCalls_response post1 rp ip n) as [Hr1 Hh1].
  destruct (rejectionCalls_response post2 rp ip n) as [Hr2 Hh2].
  split; [|split].
  - change (gateAnswers (LimiterAllow ip false :: ?l))
      with (false :: gateAnswers l).
    by rewrite !gateAnswers_rejectionCalls.
  - change (errorResponses (LimiterAllow ip false :: ?l))
      with (errorResponses l). by rewrite Hr1, Hr2.
  - change (handedToBackend (LimiterAllow ip false :: ?l))
      with (handedToBackend l). by rewrite Hh1, Hh2.
Qed.

Lemma observedAll_cons post tk r (rest : list (Ticks * Request)) rp :
  observedAll post ((tk, r) :: rest) rp
  = currentRPS tk rp r :: observedAll post rest (ServeHTTP post tk rp r).1.
Proof. reflexivity. Qed.

(** X13.  Every request is counted, admitted or not: for the requests
    of one client within one second of its window start the observed
    counts are consecutive, whatever the limit and whatever the gate
    answers, so a client that keeps sending over the limit is reported
    with a growing count. *)
Theorem ServeHTTP_counts_every_request post (reqs : list (Ticks * Request))
    rp ip (w0 c : Z) (lim : rate.Limiter) :
  holds rp ip w0 c lim ->
  Forall (fun q => getClientIP q.2 = ip /\ tickTrack q.1 - w0 < time.Second) reqs ->
  0 <= c -> c + Z.of_nat (length reqs) <= maxInt64 ->
  observedAll post reqs rp = seqZ (c + 1) (Z.of_nat (length reqs)).
Proof.
  revert rp c lim. induction reqs as [|[tk r] rest IH];
    intros rp c lim [Ht Hl] Hall Hc Hn; [done|].
  apply Forall_cons in Hall as [[Hip Hwin] Hrest]. cbn [fst snd] in Hip, Hwin.
  simpl length in *.
  rewrite observedAll_cons, seqZ_cons by lia. f_equal.
  - rewrite currentRPS_eq, Hip, (GetLimiter_known_tracker _ _ _ _ Ht).
    rewrite TrackRequest_within by (cbn; lia). reflexivity.
  - destruct (ServeHTTP_in_window post tk rp r ip w0 c lim Hip)
      as (_ & _ & Hbelow & Habove); try done.
    { by rewrite (GetLimiter_known _ _ _ _ _ Ht Hl). }
    { lia. }
    replace (Z.succ (c + 1)) with (c + 1 + 1) by lia.
    replace (Z.pred (Z.of_nat (S (length rest))))
      with (Z.of_nat (length rest)) by lia.
    destruct (Z.le_gt_cases (c + 1) (config.RateLimit (config rp))) as [Hle|Hgt].
    + destruct (Hbelow Hle) as [_ Hh]. apply (IH _ _ _ Hh Hrest); lia.
    + destruct Habove as [Hh _]; [lia|]. apply (IH _ _ _ Hh Hrest); lia.
Qed.

(** Four requests in one second against limit 2: the third and fourth
    are over the limit and still counted. *)
Lemma ServeHTTP_counts_every_request_witness :
  let cfg := {| config.BackendURL := "http://localhost:8080";
                config.RateLimit := 2; config.ContainerID := "c1";
                config.WebhookURL := EmptyString;
                config.ProxyTimeout := 30000000000;
                config.MaxIdleConns := 100;
                config.IdleConnTimeout := 90000000000 |} in
  let lim := rate.NewLimiter (rate.PerInterval 500000000) 1 in
  let rp := {| config := cfg;
               rateLimiter :=
                 {| ratelimit.clients := {[ "10.0.0.9" := lim ]};
                    ratelimit.requests :=
                      {[ "10.0.0.9" := ratelimit.NewRequestTracker 0 ]};
                    ratelimit.rate := rate.PerInterval 500000000;
                    ratelimit.rps := 2 |};
               notifier := webhook.NewNotifier EmptyString "c1" |} in
  let r := {| Header := ∅; RemoteAddr := "10.0.0.9:4711" |} in
  let at_ms (n : Z) :=
    ({| tickNew := n * 1000000; tickTrack := n * 1000000 + 1;
        tickAllow := n * 1000000 + 2 |}, r) in
  observedAll (fun _ _ _ => PostStatus 200) (map at_ms [1; 2; 3; 4]) rp
  = [1; 2; 3; 4].
Proof.
  intros cfg lim rp r at_ms.
  apply (ServeHTTP_counts_every_request (fun _ _ _ => PostStatus 200)
           (map at_ms [1; 2; 3; 4]) rp "10.0.0.9" 0 0 lim).
  - split; reflexivity.
  - repeat constructor; vm_compute; reflexivity.
  - lia.
  - vm_compute. discriminate.
Defined.

End handler.

(** ** Notification errors, backend errors, and the proxy as a machine *)

Section outcomes.

Import proxy.

Implicit Types (post : string -> string -> string -> PostResult)
  (tk : Ticks) (rp : ReverseProxy) (r : Request) (ip : string).

(** X14.  [NotifyRateLimit] returns an error exactly when a target is
    configured and the HTTP client reports a transport error, and then
    the error is that one.  A response of any status code, 2xx or not,
    is a success. *)
Theorem NotifyRateLimit_error_is_transport_error post
    (n : webhook.Notifier) (e o : Z) (err : string) :
  (webhook.NotifyRateLimit post n e o).1 = Some err
  <-> webhook.webhookURL n ≠ EmptyString
      /\ post (webhook.webhookURL n) "application/json"
           (json.Marshal (webhook.payload n e o)) = PostFailed err.
Proof.
  unfold webhook.NotifyRateLimit. case_bool_decide as Hurl.
  - cbn [fst]. split; [discriminate | intros [H _]; done].
  - destruct (post _ _ _) as [err'|code]; cbn [fst]; split.
    + intros [= ->]. done.
    + intros [_ [= ->]]. done.
    + discriminate.
    + intros [_ H]. discriminate.
Qed.

(** A target that answers 500 and a target that cannot be reached. *)
Lemma NotifyRateLimit_error_is_transport_error_witness :
  let n := webhook.NewNotifier "http://hook" "c1" in
  (webhook.NotifyRateLimit (fun _ _ _ => PostStatus 500) n 10 12).1 = None
  /\ (webhook.NotifyRateLimit (fun _ _ _ => PostFailed "connection refused")
        n 10 12).1 = Some "connection refused".
Proof.
  intros n. split.
  - destruct (webhook.NotifyRateLimit (fun _ _ _ => PostStatus 500) n 10 12).1
      as [err|] eqn:E; [|reflexivity].
    apply (NotifyRateLimit_error_is_transport_error
             (fun _ _ _ => PostStatus 500) n 10 12 err) in E as [_ E].
    discriminate.
  - apply (NotifyRateLimit_error_is_transport_error
             (fun _ _ _ => PostFailed "connection refused") n 10 12).
    split; [discriminate | reflexivity].
Defined.

Lemma errorHandler_response (path : string) (err : ProxyError) :
  errorResponses (errorHandler path err)
  = match err with Canceled => [] | Failed _ => [503] end.
Proof. by destruct err. Qed.

(** X15.  Every request gets at most one response from the handler
    itself.  It is the 429 exactly when the request is not handed to the
    backend; it is the 503 exactly when the request is handed on and the
    backend fails with an error other than the cancellation of the
    request; a cancelled request and a request the backend answers get
    none (a cancellation is only logged).  A rejected request never
    reaches the error handler. *)
Theorem serveWithBackend_responses post (backend : option ProxyError)
    (path : string) tk rp r :
  let handed := handedToBackend (ServeHTTP post tk rp r).2 in
  let out := serveWithBackend post backend path tk rp r in
  out.1 = (ServeHTTP post tk rp r).1
  /\ (length (errorResponses out.2) <= 1)%nat
  /\ (errorResponses out.2 = [429] <-> handed = false)
  /\ (errorResponses out.2 = [503]
      <-> handed = true /\ exists msg, backend = Some (Failed msg))
  /\ (errorResponses out.2 = []
      <-> handed = true /\ (backend = None \/ backend = Some Canceled)).
Proof.
  intros handed out. unfold out, handed, serveWithBackend. cbn [fst snd].
  rewrite errorResponses_app. split; [done|].
  destruct (ServeHTTP_verdict post tk rp r) as [[-> ->]|[-> ->]].
  - destruct backend as [[|msg]|]; cbn [errorHandler errorResponses omap list_omap app length].
    + repeat split; try done; try lia; try (intros; discriminate); eauto.
      intros [_ [msg [=]]].
    + repeat split; try done; try lia; try (intros; discriminate); eauto.
      intros [_ [[=]|[=]]].
    + repeat split; try done; try lia; try (intros; discriminate); eauto.
      intros [_ [msg [=]]].
  - assert (match backend with Some _ => @nil Event | None => [] end = [])
      as -> by (by destruct backend).
    cbn [errorResponses omap list_omap app length].
    repeat split; try done; try lia; try (intros; discriminate);
      intros [[=] _].
Qed.

(** A request under the limit whose backend times out, and one whose
    client has gone away. *)
Lemma serveWithBackend_responses_witness :
  let cfg := {| config.BackendURL := "http://localhost:8080";
                config.RateLimit := 10; config.ContainerID := "c1";
                config.WebhookURL := EmptyString;
                config.ProxyTimeout := 30000000000;
                config.MaxIdleConns := 100;
                config.IdleConnTimeout := 90000000000 |} in
  let rp := {| config := cfg;
               rateLimiter :=
                 {| ratelimit.clients := ∅; ratelimit.requests := ∅;
                    ratelimit.rate := rate.PerInterval 100000000;
                    ratelimit.rps := 10 |};
               notifier := webhook.NewNotifier EmptyString "c1" |} in
  let r := {| Header := ∅; RemoteAddr := "10.0.0.9:4711" |} in
  let tk := {| tickNew := 10; tickTrack := 20; tickAllow := 30 |} in
  let post := fun _ _ _ : string => PostStatus 200 in
  errorResponses
    (serveWithBackend post (Some (Failed "context deadline exceeded"))
       "/api" tk rp r).2 = [503]
  /\ errorResponses
       (serveWithBackend post (Some Canceled) "/api" tk rp r).2 = [].
Proof.
  intros cfg rp r tk post. split.
  - destruct (serveWithBackend_responses post
                (Some (Failed "context deadline exceeded")) "/api" tk rp r)
      as (_ & _ & _ & H & _).
    apply H. split; [reflexivity | eauto].
  - destruct (serveWithBackend_responses post (Some Canceled) "/api" tk rp r)
      as (_ & _ & _ & _ & H).
    apply H. split; [reflexivity | eauto].
Defined.

Lemma ServeHTTP_size post tk rp r :
  (size (ratelimit.requests (rateLimiter (ServeHTTP post tk rp r).1))
   <= S (size (ratelimit.requests (rateLimiter rp))))%nat.
Proof.
  destruct (ServeHTTP_rateLimiter post tk rp r) as (-> & _). cbv zeta.
  rewrite GetLimiter_requests.
  destruct (ratelimit.requests (rateLimiter rp) !! getClientIP r) eqn:E.
  - rewrite map_size_insert_Some by eauto. lia.
  - rewrite insert_insert_eq, map_size_insert_None by done. lia.
Qed.

Lemma runStep_invariants rp (st : Step) :
  ratelimit.paired (rateLimiter rp) ->
  ratelimit.paired (rateLimiter (runStep rp st))
  /\ (size (ratelimit.requests (rateLimiter (runStep rp st)))
      <= size (ratelimit.requests (rateLimiter rp)) + served [st])%nat
  /\ config (runStep rp st) = config rp
  /\ notifier (runStep rp st) = notifier rp.
Proof.
  intros Hp. destruct st as [post tk r|now]; cbn [runStep served].
  - split; [by apply ServeHTTP_paired|]. split.
    + pose proof (ServeHTTP_size post tk rp r). lia.
    + apply ServeHTTP_config.
  - cbn [withLimiter rateLimiter config notifier].
    split; [by apply cleanupSweep_paired|]. split; [|done].
    rewrite Nat.add_0_r. apply map_subseteq_size, map_subseteq_spec.
    intros ip t. destruct (cleanupSweep_lookup now (rateLimiter rp) ip) as [-> _].
    destruct (ratelimit.requests (rateLimiter rp) !! ip) as [t'|]; [|done].
    by destruct (ratelimit.stale now t').
Qed.

Lemma runSteps_invariants (sts : list Step) rp :
  ratelimit.paired (rateLimiter rp) ->
  ratelimit.paired (rateLimiter (runSteps sts rp))
  /\ (size (ratelimit.requests (rateLimiter (runSteps sts rp)))
      <= size (ratelimit.requests (rateLimiter rp)) + served sts)%nat
  /\ config (runSteps sts rp) = config rp
  /\ notifier (runSteps sts rp) = notifier rp.
Proof.
  unfold runSteps. revert rp. induction sts as [|st sts IH]; intros rp Hp.
  - simpl. repeat split; [done | lia].
  - destruct (runStep_invariants rp st Hp) as (Hp1 & Hs1 & Hc1 & Hn1).
    destruct (IH (runStep rp st) Hp1) as (Hp2 & Hs2 & Hc2 & Hn2).
    simpl foldl. rewrite Hc2, Hn2, Hc1, Hn1.
    split; [done|]. split; [|done].
    assert (served (st :: sts) = served [st] + served sts)%nat as ->
      by (destruct st; reflexivity).
    lia.
Qed.

Lemma NewReverseProxy_ok (urlParse : string -> option string)
    (cfg : config.Config) rp :
  NewReverseProxy urlParse cfg = Ok (inr rp) ->
  urlParse (config.BackendURL cfg) = None
  /\ config.RateLimit cfg ≠ 0
  /\ rp = {| config := cfg;
             rateLimiter :=
               {| ratelimit.clients := ∅; ratelimit.requests := ∅;
                  ratelimit.rate :=
                    rate.Every (Z.quot time.Second (config.RateLimit cfg));
                  ratelimit.rps := config.RateLimit cfg |};
             notifier :=
               webhook.NewNotifier (config.WebhookURL cfg)
                 (config.ContainerID cfg) |}.
Proof.
  unfold NewReverseProxy, ratelimit.NewRateLimiter.
  destruct (urlParse _); [discriminate|].
  destruct (config.RateLimit cfg =? 0) eqn:E; [discriminate|].
  apply Z.eqb_neq in E. intros [= <-]. done.
Qed.

(** X16.  Along any run of the proxy, requests served and sweeps in any
    order, starting from a newly constructed proxy: the tracker map and
    the gate map keep the same key set (also through the handler's
    stores), the registry never holds more clients than requests have
    been served, and the configuration and the notifier stay what they
    were at construction. *)
Theorem runSteps_keeps_registry_bounded (urlParse : string -> option string)
    (cfg : config.Config) rp0 (sts : list Step) :
  NewReverseProxy urlParse cfg = Ok (inr rp0) ->
  let rp := runSteps sts rp0 in
  dom (ratelimit.clients (rateLimiter rp))
    = dom (ratelimit.requests (rateLimiter rp))
  /\ (size (ratelimit.requests (rateLimiter rp)) <= served sts)%nat
  /\ config rp = cfg
  /\ notifier rp = webhook.NewNotifier (config.WebhookURL cfg)
                     (config.ContainerID cfg).
Proof.
  intros (_ & _ & ->)%NewReverseProxy_ok rp.
  destruct (runSteps_invariants sts
              {| config := cfg;
                 rateLimiter :=
                   {| ratelimit.clients := ∅; ratelimit.requests := ∅;
                      ratelimit.rate :=
                        rate.Every (Z.quot time.Second (config.RateLimit cfg));
                      ratelimit.rps := config.RateLimit cfg |};
                 notifier :=
                   webhook.NewNotifier (config.WebhookURL cfg)
                     (config.ContainerID cfg) |})
    as (Hp & Hs & Hc & Hn).
  { unfold ratelimit.paired. cbn. by rewrite !dom_empty_L. }
  cbn [rateLimiter ratelimit.requests config notifier] in Hs, Hc, Hn.
  rewrite map_size_empty in Hs.
  split; [exact Hp|]. split; [exact Hs|]. split; [exact Hc | exact Hn].
Qed.

(** Two requests of one peer, a sweep a minute later, a request of
    another peer. *)
Lemma runSteps_keeps_registry_bounded_witness :
  let cfg := {| config.BackendURL := "http://localhost:8080";
                config.RateLimit := 10; config.ContainerID := "c1";
                config.WebhookURL := EmptyString;
                config.ProxyTimeout := 30000000000;
                config.MaxIdleConns := 100;
                config.IdleConnTimeout := 90000000000 |} in
  let rp0 := {| config := cfg;
                rateLimiter :=
                  {| ratelimit.clients := ∅; ratelimit.requests := ∅;
                     ratelimit.rate := rate.PerInterval 100000000;
                     ratelimit.rps := 10 |};
                notifier := webhook.NewNotifier EmptyString "c1" |} in
  let post := fun _ _ _ : string => PostStatus 200 in
  let tk (n : Z) := {| tickNew := n; tickTrack := n + 1; tickAllow := n + 2 |} in
  let sts := [StepServe post (tk 0) {| Header := ∅; RemoteAddr := "10.0.0.1:1" |};
              StepServe post (tk 5) {| Header := ∅; RemoteAddr := "10.0.0.1:2" |};
              StepSweep 61000000000;
              StepServe post (tk 61000000001)
                {| Header := ∅; RemoteAddr := "10.0.0.2:1" |}] in
  (size (ratelimit.requests (rateLimiter (runSteps sts rp0))) <= 3)%nat
  /\ dom (ratelimit.clients (rateLimiter (runSteps sts rp0)))
     = dom (ratelimit.requests (rateLimiter (runSteps sts rp0))).
Proof.
  intros cfg rp0 post tk sts.
  destruct (runSteps_keeps_registry_bounded (fun _ => None) cfg rp0 sts)
    as (Hd & Hs & _); [reflexivity|].
  split; [exact Hs | exact Hd].
Defined.

(** X17.  [NewReverseProxy] has three outcomes.  It returns the error
    of [url.Parse] exactly when the backend URL does not parse, also
    when the limit is 0; it panics exactly when the URL parses and the
    limit is 0; otherwise it returns a proxy with the configuration as
    given, a notifier for the configured target and container, and an
    empty registry. *)
Theorem NewReverseProxy_outcomes (urlParse : string -> option string)
    (cfg : config.Config) :
  (forall err, NewReverseProxy urlParse cfg = Ok (inl err)
               <-> urlParse (config.BackendURL cfg) = Some err)
  /\ (forall msg, NewReverseProxy urlParse cfg = Panic msg
                  <-> urlParse (config.BackendURL cfg) = None
                      /\ config.RateLimit cfg = 0
                      /\ msg = "runtime error: integer divide by zero")
  /\ (forall rp, NewReverseProxy urlParse cfg = Ok (inr rp)
                 <-> urlParse (config.BackendURL cfg) = None
                     /\ config.RateLimit cfg ≠ 0
                     /\ config rp = cfg
                     /\ notifier rp
                        = webhook.NewNotifier (config.WebhookURL cfg)
                            (config.ContainerID cfg)
                     /\ rateLimiter rp
                        = {| ratelimit.clients := ∅; ratelimit.requests := ∅;
                             ratelimit.rate :=
                               rate.Every
                                 (Z.quot time.Second (config.RateLimit cfg));
                             ratelimit.rps := config.RateLimit cfg |}).
Proof.
  split; [|split].
  - intros err. unfold NewReverseProxy.
    destruct (urlParse _) as [e|].
    + split; congruence.
    + destruct (ratelimit.NewRateLimiter _); split; discriminate.
  - intros msg. unfold NewReverseProxy, ratelimit.NewRateLimiter.
    destruct (urlParse _) as [e|]; [split; [discriminate | intros [[=] _]]|].
    destruct (config.RateLimit cfg =? 0) eqn:E.
    + apply Z.eqb_eq in E. split; [intros [= <-]; done | intros (_ & _ & ->); done].
    + apply Z.eqb_neq in E. split; [discriminate | intros (_ & H & _); done].
  - intros rp. split.
    + intros (Hu & Hl & ->)%NewReverseProxy_ok. done.
    + intros (Hu & Hl & Hc & Hn & Hr).
      unfold NewReverseProxy, ratelimit.NewRateLimiter. rewrite Hu.
      apply Z.eqb_neq in Hl as ->.
      destruct rp as [c rl n]. cbn in Hc, Hn, Hr. by subst.
Qed.

End outcomes.

(** ** Reading the environment *)

Section environment.

Import strconv.

Lemma wrap64_range (z : Z) : minInt64 <= wrap64 z <= maxInt64.
Proof.
  unfold wrap64, minInt64, maxInt64.
  pose proof (Z.mod_pos_bound (z + 2 ^ 63) (2 ^ 64) ltac:(lia)). lia.
Qed.

Lemma Atoi_in_range (v : string) (z : Z) : Atoi v = Some z -> inInt64 z = true.
Proof.
  unfold Atoi.
  destruct (match v with
            | String "-"%char r => r
            | String "+"%char r => r
            | _ => v
            end) as [|c body]; [discriminate|].
  destruct (parseDigits 0 (String c body)) as [n|]; [|discriminate].
  destruct (inInt64 _) eqn:E; [|discriminate]. by intros [= <-].
Qed.

Lemma Atoi_digits_out_of_range (u : Decimal.uint) :
  inInt64 (Z.of_N (Pos.of_uint u)) = false ->
  Atoi (NilEmpty.string_of_uint u) = None.
Proof.
  intros Hr. pose proof (parseDigits_of_uint u) as Hp.
  destruct u; [done|..]; unfold Atoi;
    cbn [NilEmpty.string_of_uint] in *; rewrite Hp, Hr; reflexivity.
Qed.

Lemma Atoi_minus_digits_out_of_range (u : Decimal.uint) :
  inInt64 (- Z.of_N (Pos.of_uint u)) = false ->
  Atoi (String "-" (NilEmpty.string_of_uint u)) = None.
Proof.
  intros Hr. pose proof (parseDigits_of_uint u) as Hp.
  destruct u; [done|..]; unfold Atoi;
    cbn [NilEmpty.string_of_uint] in *; rewrite Hp, Hr; reflexivity.
Qed.

(** The decimal text of a number no int can hold is not read. *)
Lemma Atoi_Itoa_out_of_range (z : Z) : inInt64 z = false -> Atoi (Itoa z) = None.
Proof.
  intros Hz. unfold Itoa. destruct z as [|p|p]; [discriminate|..].
  - pose proof (to_uint_not_Nil p) as Hu.
    pose proof (DecimalPos.Unsigned.of_to p) as E.
    cbn [Z.to_int NilZero.string_of_int].
    rewrite (string_of_uint_not_Nil _ Hu).
    apply Atoi_digits_out_of_range. by rewrite E.
  - pose proof (to_uint_not_Nil p) as Hu.
    pose proof (DecimalPos.Unsigned.of_to p) as E.
    cbn [Z.to_int NilZero.string_of_int].
    rewrite (string_of_uint_not_Nil _ Hu).
    apply Atoi_minus_digits_out_of_range. by rewrite E.
Qed.

Lemma getEnvAsInt_cases (env : gmap string string) (key : string) (d : Z) :
  config.getEnvAsInt env key d =
    let value := config.Getenv env key in
    match Atoi value with
    | Some z => (z, [])
    | None =>
        (d, if bool_decide (value = EmptyString) then []
            else [LogLine ("Warning: Invalid integer value for " +:+ key
                           +:+ ", using default: " +:+ Itoa d)])
    end.
Proof.
  unfold config.getEnvAsInt. cbv zeta. case_bool_decide as E.
  - by rewrite E.
  - by destruct (Atoi _).
Qed.

(** X18.  [getEnvAsInt] falls back to the default, and only then: the
    result is the default or an int the variable's text denotes.  An
    unset or empty variable gives the default silently; a text that is
    no decimal int gives the default with exactly one warning; so does
    the decimal text of a number too large or too small for an int.
    The result is always an int when the default is. *)
Theorem getEnvAsInt_falls_back_to_default
    (env : gmap string string) (key : string) (d : Z) :
  (config.Getenv env key = EmptyString ->
     config.getEnvAsInt env key d = (d, []))
  /\ (config.Getenv env key ≠ EmptyString ->
        Atoi (config.Getenv env key) = None ->
        config.getEnvAsInt env key d
          = (d, [LogLine ("Warning: Invalid integer value for " +:+ key
                          +:+ ", using default: " +:+ Itoa d)]))
  /\ (forall z, inInt64 z = false -> env !! key = Some (Itoa z) ->
        (config.getEnvAsInt env key d).1 = d
        /\ length (config.getEnvAsInt env key d).2 = 1%nat)
  /\ ((config.getEnvAsInt env key d).1 = d
      \/ Atoi (config.Getenv env key) = Some (config.getEnvAsInt env key d).1)
  /\ (inInt64 d = true -> inInt64 (config.getEnvAsInt env key d).1 = true).
Proof.
  rewrite getEnvAsInt_cases. cbv zeta.
  split; [|split; [|split; [|split]]].
  - intros ->. reflexivity.
  - intros Hne ->. by rewrite bool_decide_eq_false_2.
  - intros z Hz Henv. rewrite (Getenv_set _ _ _ Henv).
    rewrite Atoi_Itoa_out_of_range by done. cbn [fst snd].
    split; [done|]. rewrite bool_decide_eq_false_2; [done|].
    unfold Itoa. destruct z as [|p|p]; [done|..];
      cbn [Z.to_int NilZero.string_of_int];
      [rewrite (string_of_uint_not_Nil _ (to_uint_not_Nil p));
       pose proof (to_uint_not_Nil p); by destruct (Pos.to_uint p) | done].
  - destruct (Atoi _); cbn [fst]; auto.
  - intros Hd. destruct (Atoi _) as [z|] eqn:E; cbn [fst]; [|done].
    by apply Atoi_in_range in E.
Qed.

(** A limit with a unit, and a limit of 2^63. *)
Lemma getEnvAsInt_falls_back_to_default_witness :
  config.getEnvAsInt {[ "RATE_LIMIT" := "10rps" ]} "RATE_LIMIT" 10
    = (10, [LogLine "Warning: Invalid integer value for RATE_LIMIT, using default: 10"])
  /\ (config.getEnvAsInt {[ "RATE_LIMIT" := "9223372036854775808" ]}
        "RATE_LIMIT" 10).1 = 10.
Proof.
  split.
  - destruct (getEnvAsInt_falls_back_to_default
                {[ "RATE_LIMIT" := "10rps" ]} "RATE_LIMIT" 10) as (_ & H & _).
    rewrite H; [reflexivity | vm_compute; discriminate | reflexivity].
  - destruct (getEnvAsInt_falls_back_to_default
                {[ "RATE_LIMIT" := "9223372036854775808" ]} "RATE_LIMIT" 10)
      as (_ & _ & H & _).
    apply (H 9223372036854775808); reflexivity.
Defined.

(** X19.  With none of its seven variables set (or all set to the empty
    string) [LoadConfig] yields the documented defaults: backend
    http://localhost:8080, limit 10, container unknown-container, no
    notification target, a proxy timeout of 30 s, 100 idle connections
    and an idle timeout of 90 s; the only line it can log is the warning
    about the .env file. *)
Theorem LoadConfig_defaults (env : gmap string string) (dotenvErr : option string) :
  Forall (fun key => config.Getenv env key = EmptyString)
    ["BACKEND_URL"; "RATE_LIMIT"; "CONTAINER_ID"; "WEBHOOK_URL";
     "PROXY_TIMEOUT_SECONDS"; "MAX_IDLE_CONNS"; "IDLE_CONN_TIMEOUT_SECONDS"] ->
  config.LoadConfig env dotenvErr
  = ({| config.BackendURL := "http://localhost:8080";
        config.RateLimit := 10;
        config.ContainerID := "unknown-container";
        config.WebhookURL := EmptyString;
        config.ProxyTimeout := 30 * time.Second;
        config.MaxIdleConns := 100;
        config.IdleConnTimeout := 90 * time.Second |},
     match dotenvErr with
     | Some err =>
         [LogLine ("Warning: .env file not found or error loading it: " +:+ err)]
     | None => []
     end).
Proof.
  intros H.
  repeat (apply Forall_cons in H as [?Hk H]).
  unfold config.LoadConfig. rewrite !getEnvAsInt_cases. cbv zeta.
  unfold config.getEnv.
  rewrite Hk, Hk0, Hk1, Hk2, Hk3, Hk4, Hk5.
  cbn. rewrite !app_nil_r. reflexivity.
Qed.

Lemma LoadConfig_defaults_witness :
  (config.LoadConfig {[ "HOME" := "/root"; "WEBHOOK_URL" := EmptyString ]} None).1
  = {| config.BackendURL := "http://localhost:8080";
       config.RateLimit := 10;
       config.ContainerID := "unknown-container";
       config.WebhookURL := EmptyString;
       config.ProxyTimeout := 30000000000;
       config.MaxIdleConns := 100;
       config.IdleConnTimeout := 90000000000 |}.
Proof.
  rewrite (LoadConfig_defaults
             {[ "HOME" := "/root"; "WEBHOOK_URL" := EmptyString ]} None).
  - reflexivity.
  - repeat constructor.
Defined.

(** X20.  The proxy timeout is the number of seconds read, times one
    second, in 64-bit arithmetic: it is exactly that many seconds
    precisely for values between -9223372036 and 9223372036, and wraps
    around for larger ones.  Negative values are taken as they are. *)
Theorem LoadConfig_timeout_seconds
    (env : gmap string string) (dotenvErr : option string) (v : string) (z : Z) :
  env !! "PROXY_TIMEOUT_SECONDS" = Some v -> Atoi v = Some z ->
  config.ProxyTimeout (config.LoadConfig env dotenvErr).1
    = wrap64 (z * time.Second)
  /\ (config.ProxyTimeout (config.LoadConfig env dotenvErr).1 = z * time.Second
      <-> -9223372036 <= z <= 9223372036).
Proof.
  intros Henv Hz.
  assert (config.ProxyTimeout (config.LoadConfig env dotenvErr).1
          = wrap64 (z * time.Second)) as ->.
  { unfold config.LoadConfig. cbn [fst config.ProxyTimeout].
    by rewrite (getEnvAsInt_accepts env _ v 30 z Henv Hz). }
  split; [done|]. split.
  - intros E. pose proof (wrap64_range (z * time.Second)) as Hr.
    rewrite E in Hr. unfold minInt64, maxInt64, time.Second, time.Nanosecond in Hr.
    lia.
  - intros Hr. apply wrap64_id.
    unfold minInt64, maxInt64, time.Second, time.Nanosecond. lia.
Qed.

Lemma LoadConfig_timeout_seconds_witness :
  config.ProxyTimeout
    (config.LoadConfig {[ "PROXY_TIMEOUT_SECONDS" := "5" ]} None).1
    = 5 * time.Second
  /\ config.ProxyTimeout
       (config.LoadConfig {[ "PROXY_TIMEOUT_SECONDS" := "9223372037" ]} None).1
     = -9223372036709551616.
Proof.
  split.
  - apply (LoadConfig_timeout_seconds _ None "5" 5); [reflexivity..|lia].
  - destruct (LoadConfig_timeout_seconds
                {[ "PROXY_TIMEOUT_SECONDS" := "9223372037" ]} None
                "9223372037" 9223372037) as [-> _]; reflexivity.
Defined.

(** X21.  The generic reader of the second configuration source reads
    strings and ints as [getEnv] and [getEnvAsInt] do: the same value in
    every environment, and a warning in exactly the same cases. *)
Theorem generic_getEnv_agrees
    (env : gmap string string) (key ds : string) (di : Z) :
  config_generic.getEnv env key (config_generic.VString ds)
    = (config_generic.VString (config.getEnv env key ds), [])
  /\ (config_generic.getEnv env key (config_generic.VInt di)).1
     = config_generic.VInt (config.getEnvAsInt env key di).1
  /\ length (config_generic.getEnv env key (config_generic.VInt di)).2
     = length (config.getEnvAsInt env key di).2.
Proof.
  unfold config_generic.getEnv, config.getEnv, config.getEnvAsInt. cbv zeta.
  case_bool_decide; [done|].
  by destruct (Atoi _).
Qed.

End environment.

(** ** Identity from headers, malformed peers, notifications per request *)

Section identity_and_notification.

Import proxy.

Implicit Types (post : string -> string -> string -> PostResult)
  (tk : Ticks) (rp : ReverseProxy) (r : Request).

Lemma getClientIP_forwarded (h : gmap string (list string)) (addr v : string) :
  v ≠ EmptyString ->
  getClientIP {| Header := <["X-Forwarded-For" := [v]]> h; RemoteAddr := addr |} = v.
Proof.
  intros Hv. rewrite getClientIP_cases. cbn [Header].
  rewrite Get_forwarded, lookup_insert_eq. by rewrite bool_decide_eq_false_2.
Qed.

(** X22.  The identity is whatever the X-Forwarded-For header says: a
    request carrying a value the registry has not seen is treated as the
    first request of a new client, whatever its peer address and
    however many requests that peer has made, and with a limit of at
    least 1 it is handed to the backend without the gate being
    consulted. *)
Theorem ServeHTTP_trusts_forwarded_header post tk rp
    (h : gmap string (list string)) (addr v : string) :
  v ≠ EmptyString ->
  ratelimit.requests (rateLimiter rp) !! v = None ->
  1 <= config.RateLimit (config rp) ->
  let r := {| Header := <["X-Forwarded-For" := [v]]> h; RemoteAddr := addr |} in
  getClientIP r = v
  /\ currentRPS tk rp r = 1
  /\ (ServeHTTP post tk rp r).2
     = [ProxyServeHTTP (config.ProxyTimeout (config rp))].
Proof.
  intros Hv Hnew Hlim r.
  pose proof (getClientIP_forwarded h addr v Hv) as Hip. fold r in Hip.
  split; [exact Hip|].
  assert (currentRPS tk rp r = 1) as Hone.
  { by rewrite currentRPS_eq, Hip, GetLimiter_unknown_tracker, TrackRequest_new. }
  split; [exact Hone|].
  rewrite currentRPS_eq in Hone.
  rewrite ServeHTTP_eq. cbv zeta. rewrite Hone.
  by apply Z.ltb_ge in Hlim as ->.
Qed.

(** A peer with eleven requests counted and a drained gate presents a
    new header value. *)
Lemma ServeHTTP_trusts_forwarded_header_witness :
  let cfg := {| config.BackendURL := "http://localhost:8080";
                config.RateLimit := 10; config.ContainerID := "c1";
                config.WebhookURL := EmptyString;
                config.ProxyTimeout := 30000000000;
                config.MaxIdleConns := 100;
                config.IdleConnTimeout := 90000000000 |} in
  let drained := {| rate.limit := rate.PerInterval 100000000; rate.burst := 1;
                    rate.tokens := 0; rate.last := Some 900 |} in
  let rp := {| config := cfg;
               rateLimiter :=
                 {| ratelimit.clients := {[ "10.0.0.9" := drained ]};
                    ratelimit.requests :=
                      {[ "10.0.0.9" := {| ratelimit.windowStart := 0;
                                          ratelimit.currentCount := 11 |} ]};
                    ratelimit.rate := rate.PerInterval 100000000;
                    ratelimit.rps := 10 |};
               notifier := webhook.NewNotifier EmptyString "c1" |} in
  let tk := {| tickNew := 1000; tickTrack := 1001; tickAllow := 1002 |} in
  (ServeHTTP (fun _ _ _ => PostStatus 200) tk rp
     {| Header := <["X-Forwarded-For" := ["anything"]]> ∅;
        RemoteAddr := "10.0.0.9:4711" |}).2
  = [ProxyServeHTTP 30000000000].
Proof.
  intros cfg drained rp tk.
  apply (ServeHTTP_trusts_forwarded_header (fun _ _ _ => PostStatus 200) tk rp
           ∅ "10.0.0.9:4711" "anything").
  - discriminate.
  - reflexivity.
  - vm_compute. discriminate.
Defined.

(** Whenever [SplitHostPort] reports an error, the host it returns is
    empty. *)
Lemma SplitHostPort_error_host (addr why : string) :
  (net.SplitHostPort addr).2 = Some why ->
  (net.SplitHostPort addr).1.1 = EmptyString.
Proof.
  unfold net.SplitHostPort, net.addrErr.
  repeat (match goal with
          | |- context [match ?x with _ => _ end] =>
              lazymatch x with
              | context [match _ with _ => _ end] => fail
              | _ => destruct x
              end
          | |- context [if ?b then _ else _] =>
              lazymatch b with
              | context [if _ then _ else _] => fail
              | context [match _ with _ => _ end] => fail
              | _ => destruct b
              end
          end; cbn [fst snd]); try done.
Qed.

(** X23.  A request without either header whose peer address cannot be
    split into host and port, for whatever reason (no port, too many
    colons, misplaced brackets), resolves to the empty identity: the
    error of the split is dropped. *)
Theorem getClientIP_malformed_peer r (why : string) :
  textproto.Get (Header r) "X-Forwarded-For" = EmptyString ->
  textproto.Get (Header r) "X-Real-IP" = EmptyString ->
  (net.SplitHostPort (RemoteAddr r)).2 = Some why ->
  getClientIP r = EmptyString.
Proof.
  intros H1 H2 He. rewrite getClientIP_cases, !bool_decide_eq_true_2 by done.
  by apply (SplitHostPort_error_host _ why).
Qed.

(** An IPv6 peer address without brackets. *)
Lemma getClientIP_malformed_peer_witness :
  getClientIP {| Header := ∅; RemoteAddr := "2001:db8::1:4711" |} = EmptyString.
Proof.
  apply (getClientIP_malformed_peer _ net.tooManyColons); reflexivity.
Defined.

(** X24.  One notification per rejected request and none otherwise: a
    request handed to the backend makes no outbound post; a rejected
    request makes exactly one post when a target is configured (none
    when it is not), to that target, carrying the configured limit as
    the expected rate and the count observed for this request as the
    exceeded rate. *)
Theorem ServeHTTP_notifies_once_per_rejection post tk rp r :
  (handedToBackend (ServeHTTP post tk rp r).2 = true ->
     posts (ServeHTTP post tk rp r).2 = [])
  /\ (handedToBackend (ServeHTTP post tk rp r).2 = false ->
        posts (ServeHTTP post tk rp r).2
        = if bool_decide (webhook.webhookURL (notifier rp) = EmptyString)
          then []
          else [HttpPost (webhook.webhookURL (notifier rp)) "application/json"
                  (json.Marshal
                     (webhook.payload (notifier rp)
                        (config.RateLimit (config rp))
                        (currentRPS tk rp r)))]).
Proof.
  rewrite currentRPS_eq, ServeHTTP_eq. cbv zeta.
  destruct (_ <? _); [destruct (rate.Allow _ _).1|]; cbn [snd];
    try (split; [done | discriminate]).
  split.
  - change (handedToBackend (LimiterAllow ?i false :: ?l))
      with (handedToBackend l).
    intros H.
    destruct (rejectionCalls_response post rp (getClientIP r)
                (ratelimit.TrackRequest (tickTrack tk)
                   (ratelimit.GetLimiter (tickNew tk) (getClientIP r)
                      (rateLimiter rp)).1.2).1) as [_ Hh].
    congruence.
  - intros _.
    change (posts (LimiterAllow ?i false :: ?l)) with (posts l).
    by rewrite posts_rejectionCalls, posts_NotifyRateLimit.
Qed.

(** The eleventh and the twelfth request of limit 10, with a target. *)
Lemma ServeHTTP_notifies_once_per_rejection_witness :
  let cfg := {| config.BackendURL := "http://localhost:8080";
                config.RateLimit := 10; config.ContainerID := "c1";
                config.WebhookURL := "http://hook";
                config.ProxyTimeout := 30000000000;
                config.MaxIdleConns := 100;
                config.IdleConnTimeout := 90000000000 |} in
  let nt := webhook.NewNotifier "http://hook" "c1" in
  let proxyWith (count : Z) (gate : rate.Limiter) :=
    {| config := cfg;
       rateLimiter :=
         {| ratelimit.clients := {[ "10.0.0.9" := gate ]};
            ratelimit.requests :=
              {[ "10.0.0.9" := {| ratelimit.windowStart := 0;
                                  ratelimit.currentCount := count |} ]};
            ratelimit.rate := rate.PerInterval 100000000;
            ratelimit.rps := 10 |};
       notifier := nt |} in
  let full := rate.NewLimiter (rate.PerInterval 100000000) 1 in
  let drained := {| rate.limit := rate.PerInterval 100000000; rate.burst := 1;
                    rate.tokens := 0; rate.last := Some 900 |} in
  let r := {| Header := ∅; RemoteAddr := "10.0.0.9:4711" |} in
  let tk := {| tickNew := 1000; tickTrack := 1001; tickAllow := 1002 |} in
  let post := fun _ _ _ : string => PostFailed "connection refused" in
  posts (ServeHTTP post tk (proxyWith 10 full) r).2 = []
  /\ posts (ServeHTTP post tk (proxyWith 11 drained) r).2
     = [HttpPost "http://hook" "application/json"
          (json.Marshal (webhook.payload nt 10 12))].
Proof.
  intros cfg nt proxyWith full drained r tk post. split.
  - apply (ServeHTTP_notifies_once_per_rejection post tk (proxyWith 10 full) r).
    reflexivity.
  - destruct (ServeHTTP_notifies_once_per_rejection post tk
                (proxyWith 11 drained) r) as [_ H].
    rewrite H; reflexivity.
Defined.

End identity_and_notification.
